(** * Quiz application: question provider, quiz session, result export

    A shallow embedding of [llm_service.py], [quiz_logic.py] and
    [file_exporter.py].  Python values are embedded as the inductive type
    [pyval]; exceptions are values of a sum type, so that "raises" and
    "returns" are both observable results of a function.  The three library
    calls the provider relies on ([re.search], [re.sub] and [json.loads]) are
    embedded as executable functions over sequences of code points. *)

From Stdlib Require Import String Ascii.
From Stdlib Require Import List ZArith NArith Bool Lia.
Import ListNotations.

Set Warnings "-register-all".

Local Open Scope Z_scope.

(** ** Python values *)

Module Py.

(** A Python [str] is a sequence of Unicode code points. *)
Definition char := N.
Definition text := list char.

(** ASCII literals of the source, as code points and code point
    sequences. *)
Definition ch (a : ascii) : char := N_of_ascii a.

Definition dquote : char := 34%N.

Definition str (s : string) : text :=
  map N_of_ascii (list_ascii_of_string s).

(** An ASCII literal in which an apostrophe stands for a double quote;
    it serves to write JSON documents down. *)
Definition json_text (s : string) : text :=
  map (fun c => if N.eqb c 39 then dquote else c) (str s).

Fixpoint text_eqb (a b : text) : bool :=
  match a, b with
  | [], [] => true
  | x :: a', y :: b' => N.eqb x y && text_eqb a' b'
  | _, _ => false
  end.

Fixpoint starts_with (p s : text) : bool :=
  match p, s with
  | [], _ => true
  | x :: p', y :: s' => N.eqb x y && starts_with p' s'
  | _ :: _, [] => false
  end.

(** [sub in s] on two strings: substring test. *)
Fixpoint is_substring (p s : text) : bool :=
  starts_with p s ||
  match s with
  | [] => false
  | _ :: s' => is_substring p s'
  end.

(** [sep.join(parts)]. *)
Fixpoint join (sep : text) (parts : list text) : text :=
  match parts with
  | [] => []
  | [p] => p
  | p :: rest => p ++ sep ++ join sep rest
  end.

(** IEEE-754 binary64 values as they arise from [float(literal)]: a finite
    value is [m * 2^e] with the sign kept apart (so that [-0.0] exists). *)
Inductive float64 :=
| F_nan
| F_inf (neg : bool)
| F_fin (neg : bool) (m : Z) (e : Z).

(** Round-half-to-even of the positive rational [num / den]. *)
Definition round_half_even (num den : Z) : Z :=
  let q := num / den in
  let r := num mod den in
  if 2 * r <? den then q
  else if den <? 2 * r then q + 1
  else if Z.even q then q else q + 1.

(** The correctly rounded binary64 nearest to [p / q] ([0 <= p], [0 < q]),
    as computed by [float()] on a decimal literal. *)
Definition float_of_ratio (neg : bool) (p q : Z) : float64 :=
  if p =? 0 then F_fin neg 0 0
  else
    let k0 := Z.log2 p - Z.log2 q in
    let below := if 0 <=? k0 then p <? q * 2 ^ k0 else p * 2 ^ (- k0) <? q in
    let k := if below then k0 - 1 else k0 in
    let e := Z.max (k - 52) (-1074) in
    let m := if 0 <=? e then round_half_even p (q * 2 ^ e)
             else round_half_even (p * 2 ^ (- e)) q in
    let '(m, e) := if m =? 2 ^ 53 then (2 ^ 52, e + 1) else (m, e) in
    if 971 <? e then F_inf neg
    else if m =? 0 then F_fin neg 0 0
    else F_fin neg m e.

(** [mant * 10^e10], rounded. *)
Definition float_of_decimal (neg : bool) (mant e10 : Z) : float64 :=
  if 0 <=? e10 then float_of_ratio neg (mant * 10 ^ e10) 1
  else float_of_ratio neg mant (10 ^ (- e10)).

Definition float_eqb (a b : float64) : bool :=
  match a, b with
  | F_inf n1, F_inf n2 => Bool.eqb n1 n2
  | F_fin n1 m1 e1, F_fin n2 m2 e2 =>
      ((m1 =? 0) && (m2 =? 0)) ||
      (Bool.eqb n1 n2 && (m1 =? m2) && (e1 =? e2))
  | _, _ => false
  end.

(** [float == int] compares the exact values. *)
Definition float_eq_int (a : float64) (z : Z) : bool :=
  match a with
  | F_fin neg m e =>
      let v := if neg then - m else m in
      if 0 <=? e then v * 2 ^ e =? z else v =? z * 2 ^ (- e)
  | _ => false
  end.

(** The values [json.loads] can produce.  A [dict] keeps its insertion
    order, so it is an association list with pairwise different keys. *)
Inductive pyval :=
| PyNone
| PyBool (b : bool)
| PyInt (z : Z)
| PyFloat (f : float64)
| PyStr (s : text)
| PyList (l : list pyval)
| PyDict (d : list (text * pyval)).

Definition dict := list (text * pyval).

Fixpoint dict_get (d : dict) (k : text) : option pyval :=
  match d with
  | [] => None
  | (k', v) :: d' => if text_eqb k k' then Some v else dict_get d' k
  end.

Definition dict_has (d : dict) (k : text) : bool :=
  match dict_get d k with Some _ => true | None => false end.

(** [d[k] = v]: an existing key keeps its position. *)
Fixpoint dict_set (d : dict) (k : text) (v : pyval) : dict :=
  match d with
  | [] => [(k, v)]
  | (k', v') :: d' =>
      if text_eqb k k' then (k', v) :: d' else (k', v') :: dict_set d' k v
  end.

Definition Z_of_bool (b : bool) : Z := if b then 1 else 0.

(** Equality as the containers use it ([PyObject_RichCompareBool] with
    [Py_EQ]): identical objects are equal, otherwise [==] decides.  Every
    [NaN] that [json.loads] returns is the one object [json.decoder.NaN], so
    inside parsed data two NaNs are identical. *)
Fixpoint py_eqb (a b : pyval) {struct a} : bool :=
  match a, b with
  | PyNone, PyNone => true
  | PyBool x, PyBool y => Bool.eqb x y
  | PyBool x, PyInt z | PyInt z, PyBool x => Z_of_bool x =? z
  | PyBool x, PyFloat f | PyFloat f, PyBool x => float_eq_int f (Z_of_bool x)
  | PyInt x, PyInt y => x =? y
  | PyInt z, PyFloat f | PyFloat f, PyInt z => float_eq_int f z
  | PyFloat F_nan, PyFloat F_nan => true
  | PyFloat x, PyFloat y => float_eqb x y
  | PyStr x, PyStr y => text_eqb x y
  | PyList x, PyList y =>
      (fix list_eq (x y : list pyval) {struct x} : bool :=
         match x, y with
         | [], [] => true
         | u :: x', v :: y' => py_eqb u v && list_eq x' y'
         | _, _ => false
         end) x y
  | PyDict x, PyDict y =>
      Nat.eqb (length x) (length y) &&
      (fix dict_le (x : list (text * pyval)) {struct x} : bool :=
         match x with
         | [] => true
         | (k, u) :: x' =>
             match dict_get y k with
             | Some v => py_eqb u v && dict_le x'
             | None => false
             end
         end) x
  | _, _ => false
  end.

(** The [==] operator: as [py_eqb], except that at top level no identity
    shortcut applies and [nan == nan] is false. *)
Definition py_eq (a b : pyval) : bool :=
  match a, b with
  | PyFloat F_nan, _ | _, PyFloat F_nan => false
  | _, _ => py_eqb a b
  end.

(** Truth value of an object, as [if x] and [not x] test it. *)
Definition py_truthy (v : pyval) : bool :=
  match v with
  | PyNone => false
  | PyBool b => b
  | PyInt z => negb (z =? 0)
  | PyFloat (F_fin _ m _) => negb (m =? 0)
  | PyFloat _ => true
  | PyStr s => negb (Nat.eqb (length s) 0)
  | PyList l => negb (Nat.eqb (length l) 0)
  | PyDict d => negb (Nat.eqb (length d) 0)
  end.

(** Exceptions, by class. *)
Inductive exn :=
| ValueError
| JSONDecodeError
| TypeError
| KeyError
| UnboundLocalError
| RecursionError
| UnicodeEncodeError
| OtherException.

(** A call either raises ([inl]) or returns ([inr]). *)
Definition result (A : Type) : Type := (exn + A)%type.

Definition ret {A} (a : A) : result A := inr a.
Definition raise {A} (e : exn) : result A := inl e.
Definition bind {A B} (m : result A) (f : A -> result B) : result B :=
  match m with
  | inl e => inl e
  | inr a => f a
  end.

(** [x in container]. *)
Definition py_contains (x container : pyval) : result bool :=
  match container with
  | PyDict d =>
      match x with
      | PyStr k => ret (dict_has d k)
      | PyList _ | PyDict _ => raise TypeError
      | _ => ret false
      end
  | PyList l => ret (existsb (fun e => py_eqb e x) l)
  | PyStr s =>
      match x with
      | PyStr p => ret (is_substring p s)
      | _ => raise TypeError
      end
  | _ => raise TypeError
  end.

(** [obj[key]] for a string key. *)
Definition py_getitem (obj : pyval) (key : text) : result pyval :=
  match obj with
  | PyDict d =>
      match dict_get d key with
      | Some v => ret v
      | None => raise KeyError
      end
  | _ => raise TypeError
  end.

(** [l[:n]] on a list. *)
Definition slice_to {A} (l : list A) (n : Z) : list A :=
  if 0 <=? n then firstn (Z.to_nat n) l
  else firstn (Z.to_nat (Z.of_nat (length l) + n)) l.

End Py.

(** ** Regular expressions: the fragment of [re] the provider uses *)

Module Re.
Import Py.

(** Pattern syntax.  [Any] is [.] under [re.DOTALL]; [Space] is [\s] on a
    [str] pattern; [Star] is the greedy [*]. *)
Inductive regex :=
| Lit (c : char)
| Any
| Space
| Cat (r1 r2 : regex)
| Star (r : regex).

(** [\s] on [str] patterns: the code points for which [str.isspace()]
    holds. *)
Definition is_space (c : char) : bool :=
  (((9 <=? c) && (c <=? 13)) || ((28 <=? c) && (c <=? 32)) ||
   (c =? 133) || (c =? 160) || (c =? 5760) ||
   ((8192 <=? c) && (c <=? 8202)) || (c =? 8232) || (c =? 8233) ||
   (c =? 8239) || (c =? 8287) || (c =? 12288))%N.

(** The loop of a greedy [*]: [body] is the matcher of the repeated
    pattern and [k] what follows the loop.  One more iteration is tried
    before stopping is; an iteration that consumes nothing ends the loop.
    [n] bounds the iterations by the length of the input. *)
Fixpoint star_loop (body : text -> (text -> option text) -> option text)
  (k : text -> option text) (n : nat) (s : text) {struct n} : option text :=
  match n with
  | O => k s
  | S n' =>
      match body s (fun s' =>
                      if Nat.ltb (length s') (length s)
                      then star_loop body k n' s'
                      else None) with
      | Some rest => Some rest
      | None => k s
      end
  end.

(** Backtracking matcher in continuation-passing style: [rmatch r s k]
    matches [r] at the start of [s] and hands the remaining input to [k];
    the result is the first success in the order in which a backtracking
    engine tries the alternatives. *)
Fixpoint rmatch (r : regex) (s : text) (k : text -> option text)
  {struct r} : option text :=
  match r with
  | Lit c =>
      match s with
      | x :: s' => if N.eqb x c then k s' else None
      | [] => None
      end
  | Any =>
      match s with
      | _ :: s' => k s'
      | [] => None
      end
  | Space =>
      match s with
      | x :: s' => if is_space x then k s' else None
      | [] => None
      end
  | Cat r1 r2 => rmatch r1 s (fun s' => rmatch r2 s' k)
  | Star r1 => star_loop (rmatch r1) k (length s) s
  end.

(** [m.group(0)] of a match that starts at [s] and leaves [rest]. *)
Definition matched (s rest : text) : text :=
  firstn (length s - length rest) s.

(** [re.search(r, s)]: the match at the leftmost position that has one;
    [None] when no position has. *)
Fixpoint search (r : regex) (s : text) : option text :=
  match rmatch r s Some with
  | Some rest => Some (matched s rest)
  | None =>
      match s with
      | [] => None
      | _ :: s' => search r s'
      end
  end.

(** [re.sub(r, repl, s)] for a literal replacement: every non-overlapping
    match, leftmost first, is replaced.  [skip] counts the characters of the
    current match that are still to be dropped. *)
Fixpoint sub_from (r : regex) (repl : text) (s : text) (skip : nat) : text :=
  match s with
  | [] =>
      match skip, rmatch r [] Some with
      | O, Some _ => repl
      | _, _ => []
      end
  | c :: s' =>
      match skip with
      | S skip' => sub_from r repl s' skip'
      | O =>
          match rmatch r s Some with
          | Some rest =>
              match (length s - length rest)%nat with
              | O => repl ++ c :: sub_from r repl s' 0
              | S m => repl ++ sub_from r repl s' m
              end
          | None => c :: sub_from r repl s' 0
          end
      end
  end.

Definition sub (r : regex) (repl s : text) : text := sub_from r repl s 0.

(** A continuation is shrinking when what it returns is never longer than
    what it is given; the matcher then never returns more than its input. *)
Definition shrinking (k : text -> option text) : Prop :=
  forall s rest, k s = Some rest -> (length rest <= length s)%nat.

(** The result of a match with [post] put back behind what was left. *)
Definition extend (post : text) (o : option text) : option text :=
  option_map (fun rest => rest ++ post) o.

(** [t] is what is left of [post] after at least one character. *)
Definition proper_suffix (t post : text) : Prop :=
  exists u, u <> [] /\ post = u ++ t.

(** Two continuations agree up to a trailing text [post]: on an input that
    still has all of [post] behind it the second does what the first does
    without [post], and on an input that ends inside [post] it fails. *)
Definition agree_up_to (post : text) (k k' : text -> option text) : Prop :=
  (forall t, k' (t ++ post) = extend post (k t)) /\
  (forall t', proper_suffix t' post -> k' t' = None).

(** The pattern ends with the literal [c]. *)
Inductive ends_in (c : char) : regex -> Prop :=
| ends_in_lit : ends_in c (Lit c)
| ends_in_cat (r1 r2 : regex) : ends_in c r2 -> ends_in c (Cat r1 r2).

End Re.

(** ** [json.loads] *)

Module Json.
Import Py.

Local Open Scope N_scope.

(** JSON whitespace: space, tab, line feed, carriage return. *)
Definition is_ws (c : char) : bool :=
  (c =? 32) || (c =? 9) || (c =? 10) || (c =? 13).

Fixpoint skip_ws (s : text) : text :=
  match s with
  | c :: s' => if is_ws c then skip_ws s' else s
  | [] => []
  end.

Definition is_digit (c : char) : bool := (48 <=? c) && (c <=? 57).

Definition hex_digit (c : char) : option N :=
  if (48 <=? c) && (c <=? 57) then Some (c - 48)
  else if (65 <=? c) && (c <=? 70) then Some (c - 55)
  else if (97 <=? c) && (c <=? 102) then Some (c - 87)
  else None.

Definition hex4 (a b c d : char) : option N :=
  match hex_digit a, hex_digit b, hex_digit c, hex_digit d with
  | Some x, Some y, Some z, Some w => Some (((x * 16 + y) * 16 + z) * 16 + w)
  | _, _, _, _ => None
  end.

Definition is_high_surrogate (u : N) : bool := (55296 <=? u) && (u <=? 56319).
Definition is_low_surrogate (u : N) : bool := (56320 <=? u) && (u <=? 57343).
Definition join_surrogates (hi lo : N) : N :=
  65536 + (hi - 55296) * 1024 + (lo - 56320).

(** The single-character escapes. *)
Definition unescape (e : char) : option char :=
  if e =? dquote then Some (dquote)
  else if e =? ch "\" then Some (ch "\")
  else if e =? ch "/" then Some (ch "/")
  else if e =? ch "b" then Some 8
  else if e =? ch "f" then Some 12
  else if e =? ch "n" then Some 10
  else if e =? ch "r" then Some 13
  else if e =? ch "t" then Some 9
  else None.

Definition cons_fst {A B} (a : A) (p : option (list A * B)) :
  option (list A * B) :=
  match p with
  | Some (l, r) => Some (a :: l, r)
  | None => None
  end.

(** [scanstring] in strict mode, from just after the opening quote: the
    decoded string and the input after the closing quote, or [None] for any
    of its errors (unterminated string, control character, bad escape). *)
Fixpoint scanstring (s : text) : option (text * text) :=
  match s with
  | [] => None
  | c :: s1 =>
      if c =? dquote then Some ([], s1)
      else if c =? ch "\" then
        match s1 with
        | [] => None
        | e :: s2 =>
            if e =? ch "u" then
              match s2 with
              | a :: b :: c' :: d :: s3 =>
                  match hex4 a b c' d with
                  | None => None
                  | Some u =>
                      match s3 with
                      | x :: y :: a2 :: b2 :: c2 :: d2 :: s4 =>
                          if is_high_surrogate u && (x =? ch "\") &&
                             (y =? ch "u")
                          then
                            match hex4 a2 b2 c2 d2 with
                            | None => None
                            | Some u2 =>
                                if is_low_surrogate u2
                                then cons_fst (join_surrogates u u2)
                                       (scanstring s4)
                                else cons_fst u (scanstring s3)
                            end
                          else cons_fst u (scanstring s3)
                      | _ => cons_fst u (scanstring s3)
                      end
                  end
              | _ => None
              end
            else
              match unescape e with
              | Some c' => cons_fst c' (scanstring s2)
              | None => None
              end
        end
      else if c <=? 31 then None
      else cons_fst c (scanstring s1)
  end.

Fixpoint span_digits (s : text) : text * text :=
  match s with
  | c :: s' =>
      if is_digit c then let (d, r) := span_digits s' in (c :: d, r)
      else ([], s)
  | [] => ([], [])
  end.

Definition digits_value (ds : text) : Z :=
  fold_left (fun acc c => (acc * 10 + Z.of_N (c - 48))%Z) ds 0%Z.

(** The integer part of a number: [0] alone, or a non-zero digit and the
    digits after it. *)
Definition int_part (s : text) : option (text * text) :=
  match s with
  | c :: s' =>
      if c =? ch "0" then Some ([c], s')
      else if is_digit c then let (d, r) := span_digits s' in Some (c :: d, r)
      else None
  | [] => None
  end.

(** [.] and at least one digit, else nothing. *)
Definition frac_part (s : text) : option text * text :=
  match s with
  | dot :: d1 :: _ =>
      if (dot =? ch ".") && is_digit d1
      then let (d, r) := span_digits (tl s) in (Some d, r)
      else (None, s)
  | _ => (None, s)
  end.

(** [e] or [E], an optional sign and at least one digit, else nothing. *)
Definition exp_part (s : text) : option (bool * text) * text :=
  match s with
  | e :: s' =>
      if (e =? ch "e") || (e =? ch "E") then
        let '(eneg, s'') :=
          match s' with
          | sg :: t =>
              if sg =? ch "-" then (true, t)
              else if sg =? ch "+" then (false, t)
              else (false, s')
          | [] => (false, s')
          end in
        let (ed, r) := span_digits s'' in
        match ed with
        | [] => (None, s)
        | _ :: _ => (Some (eneg, ed), r)
        end
      else (None, s)
  | [] => (None, s)
  end.

(** A number at the start of [s]: an [int] when it has neither fraction nor
    exponent, a [float] otherwise. *)
Definition match_number (s : text) : option (pyval * text) :=
  let '(neg, s1) :=
    match s with
    | c :: s' => if c =? ch "-" then (true, s') else (false, s)
    | [] => (false, s)
    end in
  match int_part s1 with
  | None => None
  | Some (idig, s2) =>
      let '(frac, s3) := frac_part s2 in
      let '(exp, s4) := exp_part s3 in
      match frac, exp with
      | None, None =>
          let v := digits_value idig in
          Some (PyInt (if neg then (- v)%Z else v), s4)
      | _, _ =>
          let fdig := match frac with Some d => d | None => [] end in
          let e := match exp with
                   | Some (eneg, ed) =>
                       if eneg then (- digits_value ed)%Z else digits_value ed
                   | None => 0%Z
                   end in
          Some (PyFloat (float_of_decimal neg (digits_value (idig ++ fdig))
                           (e - Z.of_nat (length fdig))), s4)
      end
  end.

(** Outcome of scanning one value: the value and the remaining input, a
    malformed document, or recursion budget used up. *)
Inductive scan :=
| Scanned (v : pyval) (rest : text)
| Malformed
| Exhausted.

(** The named constants and numbers. *)
Definition scan_atom (s : text) : scan :=
  if starts_with (str "null") s then Scanned PyNone (skipn 4 s)
  else if starts_with (str "true") s then Scanned (PyBool true) (skipn 4 s)
  else if starts_with (str "false") s then Scanned (PyBool false) (skipn 5 s)
  else if starts_with (str "NaN") s then Scanned (PyFloat F_nan) (skipn 3 s)
  else if starts_with (str "Infinity") s
       then Scanned (PyFloat (F_inf false)) (skipn 8 s)
  else if starts_with (str "-Infinity") s
       then Scanned (PyFloat (F_inf true)) (skipn 9 s)
  else match match_number s with
       | Some (v, r) => Scanned v r
       | None => Malformed
       end.

(** [scan_once] with its two loops, [parse_array] (after the opening
    bracket and white space, when the array is not empty) and [parse_object]
    (likewise).  [acc] holds what the loop has collected so far. *)
Fixpoint scan_once (fuel : nat) (s : text) {struct fuel} : scan :=
  match fuel with
  | O => Exhausted
  | S fuel' =>
      match s with
      | [] => Malformed
      | c :: s' =>
          if c =? dquote then
            match scanstring s' with
            | Some (t, r) => Scanned (PyStr t) r
            | None => Malformed
            end
          else if c =? ch "{" then
            match skip_ws s' with
            | c1 :: r1 =>
                if c1 =? ch "}" then Scanned (PyDict []) r1
                else parse_object fuel' (c1 :: r1) []
            | [] => Malformed
            end
          else if c =? ch "[" then
            match skip_ws s' with
            | c1 :: r1 =>
                if c1 =? ch "]" then Scanned (PyList []) r1
                else parse_array fuel' (c1 :: r1) []
            | [] => Malformed
            end
          else scan_atom s
      end
  end
with parse_array (fuel : nat) (s : text) (acc : list pyval)
  {struct fuel} : scan :=
  match fuel with
  | O => Exhausted
  | S fuel' =>
      match scan_once fuel' s with
      | Scanned v r =>
          match skip_ws r with
          | c :: r1 =>
              if c =? ch "]" then Scanned (PyList (acc ++ [v])) r1
              else if c =? ch "," then
                parse_array fuel' (skip_ws r1) (acc ++ [v])
              else Malformed
          | [] => Malformed
          end
      | Malformed => Malformed
      | Exhausted => Exhausted
      end
  end
with parse_object (fuel : nat) (s : text) (acc : dict)
  {struct fuel} : scan :=
  match fuel with
  | O => Exhausted
  | S fuel' =>
      match s with
      | q :: s1 =>
          if q =? dquote then
            match scanstring s1 with
            | Some (key, r) =>
                match skip_ws r with
                | colon :: r1 =>
                    if colon =? ch ":" then
                      match scan_once fuel' (skip_ws r1) with
                      | Scanned v r2 =>
                          match skip_ws r2 with
                          | c :: r3 =>
                              if c =? ch "}"
                              then Scanned (PyDict (dict_set acc key v)) r3
                              else if c =? ch "," then
                                parse_object fuel' (skip_ws r3)
                                  (dict_set acc key v)
                              else Malformed
                          | [] => Malformed
                          end
                      | Malformed => Malformed
                      | Exhausted => Exhausted
                      end
                    else Malformed
                | [] => Malformed
                end
            | None => Malformed
            end
          else Malformed
      | [] => Malformed
      end
  end.

(** [json.loads(s)] on a [str]: one value, white space around it allowed,
    nothing else after it.  Every failure of the decoder is a
    [JSONDecodeError].  The budget given to [scan_once] is never used up
    (lemma [scan_once_budget] below); the interpreter's own recursion limit
    and integer-digit limit are not part of this model: when they strike,
    [json.loads] raises as well. *)
Definition loads (s : text) : result pyval :=
  if starts_with [65279] s then raise JSONDecodeError
  else
    let s0 := skip_ws s in
    match scan_once (2 * length s0 + 2) s0 with
    | Scanned v rest =>
        match skip_ws rest with
        | [] => ret v
        | _ :: _ => raise JSONDecodeError
        end
    | Malformed => raise JSONDecodeError
    | Exhausted => raise RecursionError
    end.

(** One unfolding of the scanners in a hypothesis. *)
Ltac scan_step H :=
  cbn [scan_once parse_array parse_object] in H.

End Json.

(** ** [llm_service.py]: the question provider *)

Module LLMService.
Import Py.

Local Notation "x <- m ;; k" := (bind m (fun x => k))
  (at level 61, m at next level, right associativity).
Local Infix ">>" := Re.Cat (at level 60, right associativity).

(** What [generate_quiz_questions] puts into the prompt: the requested
    number, the topic and the examples shown.  The prompt text is a function
    of these three; the model behind [generate_content] is any function of
    the prompt that returns the response text or raises. *)
Record prompt := {
  prompt_num_questions : Z;
  prompt_topic : text;
  prompt_examples : list pyval
}.

Record LLMService := {
  generate_content : prompt -> result text
}.

(** [x or y] on two optional strings. *)
Definition py_or (x y : option text) : option text :=
  match x with
  | Some (_ :: _) => x
  | _ => y
  end.

(** [__init__]: the key comes from the secrets or from the environment;
    without one the constructor raises [ValueError]. *)
Definition init (secret env : option text)
  (backend : prompt -> result text) : result LLMService :=
  let api_key := py_or secret env in
  match api_key with
  | Some (_ :: _) => ret {| generate_content := backend |}
  | _ => raise ValueError
  end.

Definition question_dict (q : string) (opts : list string)
  (answer expl : string) : pyval :=
  PyDict [ (str "question", PyStr (str q));
           (str "options", PyList (map (fun o => PyStr (str o)) opts));
           (str "correct_answer", PyStr (str answer));
           (str "explanation", PyStr (str expl)) ].

Definition example_questions : list pyval :=
  [ question_dict "What is the capital of France?"
      ["London"; "Paris"; "Rome"; "Berlin"]%string "Paris"
      "Paris is the largest city and capital of France, known for its art, fashion, and culture.";
    question_dict "Which planet is known as the Red Planet?"
      ["Earth"; "Mars"; "Jupiter"; "Venus"]%string "Mars"
      "Mars is often called the Red Planet due to its reddish appearance, caused by iron oxide on its surface.";
    question_dict "Who painted the Mona Lisa?"
      ["Vincent van Gogh"; "Pablo Picasso"; "Leonardo da Vinci";
       "Claude Monet"]%string "Leonardo da Vinci"
      "Leonardo da Vinci was an Italian polymath, who created the Mona Lisa, one of the most famous paintings in the world.";
    question_dict "What is the largest ocean on Earth?"
      ["Atlantic Ocean"; "Indian Ocean"; "Arctic Ocean";
       "Pacific Ocean"]%string "Pacific Ocean"
      "The Pacific Ocean is the largest and deepest of Earth's oceanic divisions, covering about a third of the surface.";
    question_dict "Which of these is a primate?"
      ["Bear"; "Elephant"; "Monkey"; "Kangaroo"]%string "Monkey"
      "Monkeys are a diverse group of primates, typically having tails and living in trees or on the ground." ].

(** The pattern of [re.search], compiled with [re.DOTALL]: an opening
    bracket, white space, a first [{.*}] with white space after it, any
    number of further [{.*}] each led by a comma and white space, and the
    closing bracket. *)
Definition object_re : Re.regex :=
  Re.Lit (ch "{") >> Re.Star Re.Any >> Re.Lit (ch "}") >> Re.Star Re.Space.

Definition json_array_re : Re.regex :=
  Re.Lit (ch "[") >> Re.Star Re.Space >> object_re >>
  Re.Star (Re.Lit (ch ",") >> Re.Star Re.Space >> object_re) >>
  Re.Lit (ch "]").

(** [r',\s*\]']. *)
Definition trailing_comma_re : Re.regex :=
  Re.Lit (ch ",") >> Re.Star Re.Space >> Re.Lit (ch "]").

Definition required_fields : list text :=
  [str "question"; str "options"; str "correct_answer"; str "explanation"].

(** [all(field in q for field in fields)]: stops at the first field that is
    missing; a [q] that supports no [in] raises. *)
Fixpoint all_fields_in (fields : list text) (q : pyval) : result bool :=
  match fields with
  | [] => ret true
  | field :: fields' =>
      present <- py_contains (PyStr field) q ;;
      if present then all_fields_in fields' q else ret false
  end.

(** The body of the inner [try]: [true] when [q] is appended. *)
Definition check_question (q : pyval) : result bool :=
  has_fields <- all_fields_in required_fields q ;;
  if has_fields then
    options <- py_getitem q (str "options") ;;
    match options with
    | PyList l =>
        if Nat.eqb (length l) 4 then
          correct_answer <- py_getitem q (str "correct_answer") ;;
          py_contains correct_answer options
        else ret false
    | _ => ret false
    end
  else ret false.

(** The validation loop; a question whose check raises is skipped like one
    that fails it. *)
Definition validate_questions (questions_data : list pyval) : list pyval :=
  fold_left
    (fun validated_questions q =>
       match check_question q with
       | inr true => validated_questions ++ [q]
       | _ => validated_questions
       end)
    questions_data [].

(** The trimming step: more questions than requested are cut to the first
    [num_questions]; fewer are left alone. *)
Definition trim_questions (questions_data : list pyval) (num_questions : Z)
  : list pyval :=
  if negb (Z.of_nat (length questions_data) =? num_questions) then
    if Z.of_nat (length questions_data) >? num_questions
    then slice_to questions_data num_questions
    else questions_data
  else questions_data.

(** The body of the outer [try] from the point where the response text is
    known.  The text handed to [json.loads] starts with a bracket, so a
    parse result is a list; for any other value the source ends with no
    validated question as well (its length, slice or element checks fail),
    which the last branch records. *)
Definition parse_response (raw_response_text : text) (num_questions : Z)
  : result (list pyval) :=
  match Re.search json_array_re raw_response_text with
  | Some json_string =>
      let json_string := Re.sub trailing_comma_re (str "]") json_string in
      questions_data <- Json.loads json_string ;;
      match questions_data with
      | PyList l => ret (validate_questions (trim_questions l num_questions))
      | _ => ret []
      end
  | None => ret []
  end.

(** The prompt, built before the [try]: the examples shown are the first
    [min(num_questions, 5)] of the five. *)
Definition build_prompt (topic : text) (num_questions : Z) : prompt :=
  let examples_to_show :=
    slice_to example_questions
      (Z.min num_questions (Z.of_nat (length example_questions))) in
  {| prompt_num_questions := num_questions;
     prompt_topic := topic;
     prompt_examples := examples_to_show |}.

(** [generate_quiz_questions].  Both handlers return the empty list; the
    handler for [JSONDecodeError] first prints [raw_response_text], which is
    unbound when the model call itself raised that error. *)
Definition generate_quiz_questions (self : LLMService) (topic : text)
  (num_questions : Z) : result (list pyval) :=
  let prompt := build_prompt topic num_questions in
  match generate_content self prompt with
  | inr raw_response_text =>
      match parse_response raw_response_text num_questions with
      | inr validated_questions => ret validated_questions
      | inl _ => ret []
      end
  | inl JSONDecodeError => raise UnboundLocalError
  | inl _ => ret []
  end.

(** A question passes the validation loop. *)
Definition accepted (q : pyval) : bool :=
  match check_question q with
  | inr true => true
  | _ => false
  end.

(** What the validation loop guarantees of a record: it is a dictionary
    with the four fields, its options are a list of four entries, and its
    correct answer compares equal to one of them. *)
Definition admitted_record (q : pyval) : Prop :=
  exists d question options correct_answer explanation,
    q = PyDict d /\
    dict_get d (str "question") = Some question /\
    dict_get d (str "options") = Some (PyList options) /\
    dict_get d (str "correct_answer") = Some correct_answer /\
    dict_get d (str "explanation") = Some explanation /\
    length options = 4%nat /\
    exists o, In o options /\ py_eqb o correct_answer = true.

(** The QuestionRecord of the specification's data model: the question is
    a non-empty string, the options are exactly four pairwise different
    non-empty strings, the correct answer equals exactly one of them, and
    the explanation is a string. *)
Definition is_nonempty_str (v : pyval) : bool :=
  match v with
  | PyStr (_ :: _) => true
  | _ => false
  end.

Fixpoint pairwise_distinct (l : list pyval) : bool :=
  match l with
  | [] => true
  | x :: l' => negb (existsb (py_eqb x) l') && pairwise_distinct l'
  end.

Definition valid_question_record (q : pyval) : bool :=
  match q with
  | PyDict d =>
      match dict_get d (str "question"), dict_get d (str "options"),
            dict_get d (str "correct_answer"),
            dict_get d (str "explanation") with
      | Some question, Some (PyList options), Some correct_answer,
        Some (PyStr _) =>
          is_nonempty_str question &&
          Nat.eqb (length options) 4 &&
          forallb is_nonempty_str options &&
          pairwise_distinct options &&
          Nat.eqb (length (filter (py_eqb correct_answer) options)) 1
      | _, _, _, _ => false
      end
  | _ => false
  end.

(** What [generate_quiz_questions] returns once the model has answered
    with a text. *)
Definition questions_of_text (raw : text) (num_questions : Z) : list pyval :=
  match Re.search json_array_re raw with
  | Some json_string =>
      match Json.loads (Re.sub trailing_comma_re (str "]") json_string) with
      | inr (PyList l) => validate_questions (trim_questions l num_questions)
      | _ => []
      end
  | None => []
  end.

(** A response with two records that pass validation: in the first the
    question is empty, one option is empty and one option occurs twice; in
    the second nothing is a string and the explanation is [null]. *)
Definition degenerate_response : text :=
  json_text "[{'question':'','options':['A','A','','D'],'correct_answer':'A','explanation':'E'}, {'question':7,'options':[1,2,3,4],'correct_answer':1.0,'explanation':null}]".

Definition degenerate_records : list pyval :=
  [ question_dict "" ["A"; "A"; ""; "D"]%string "A" "E";
    PyDict [ (str "question", PyInt 7);
             (str "options", PyList [PyInt 1; PyInt 2; PyInt 3; PyInt 4]);
             (str "correct_answer", PyFloat (F_fin false (2 ^ 52) (-52)));
             (str "explanation", PyNone) ] ].

Definition fixed_model (raw : text) : LLMService :=
  {| generate_content := fun _ => inr raw |}.

(** A response with three valid records, of which two are requested. *)
Definition three_records_response : text :=
  json_text "[{'question':'Q1','options':['A','B','C','D'],'correct_answer':'A','explanation':'E'},{'question':'Q2','options':['A','B','C','D'],'correct_answer':'B','explanation':'E'},{'question':'Q3','options':['A','B','C','D'],'correct_answer':'C','explanation':'E'}]".

(** The response of the specification's example: an array with a comma
    before its closing bracket. *)
Definition trailing_comma_response : text :=
  json_text "[{'question':'Q','options':['A','B','C','D'],'correct_answer':'A','explanation':'E'},]".

End LLMService.

(** ** [quiz_logic.py]: the quiz session *)

Module QuizLogic.
Import Py.

Record QuizManager := {
  questions : list pyval;
  current_question_index : Z;
  user_answers : list dict;
  score : Z;
  quiz_started : bool
}.

(** A method body: it reads and updates the attributes of [self] and
    returns or raises.  The attributes keep every update made before a
    raise. *)
Definition method (A : Type) : Type := QuizManager -> QuizManager * result A.

Definition mret {A} (a : A) : method A := fun self => (self, inr a).

Definition mbind {A B} (m : method A) (f : A -> method B) : method B :=
  fun self =>
    match m self with
    | (self', inr a) => f a self'
    | (self', inl e) => (self', inl e)
    end.

Definition read {A} (attr : QuizManager -> A) : method A :=
  fun self => (self, inr (attr self)).

Definition update (f : QuizManager -> QuizManager) : method unit :=
  fun self => (f self, inr tt).

Definition lift {A} (r : result A) : method A := fun self => (self, r).

Local Notation "x <- m ;; k" := (mbind m (fun x => k))
  (at level 61, m at next level, right associativity).
Local Notation "m ;;; k" := (mbind m (fun _ => k))
  (at level 61, right associativity).

Definition set_score (v : Z) (self : QuizManager) : QuizManager :=
  {| questions := questions self;
     current_question_index := current_question_index self;
     user_answers := user_answers self;
     score := v;
     quiz_started := quiz_started self |}.

Definition set_user_answers (v : list dict) (self : QuizManager)
  : QuizManager :=
  {| questions := questions self;
     current_question_index := current_question_index self;
     user_answers := v;
     score := score self;
     quiz_started := quiz_started self |}.

Definition set_current_question_index (v : Z) (self : QuizManager)
  : QuizManager :=
  {| questions := questions self;
     current_question_index := v;
     user_answers := user_answers self;
     score := score self;
     quiz_started := quiz_started self |}.

(** [__init__]. *)
Definition new : QuizManager :=
  {| questions := [];
     current_question_index := 0;
     user_answers := [];
     score := 0;
     quiz_started := false |}.

Definition load_questions (self : QuizManager) (questions_data : list pyval)
  : QuizManager :=
  {| questions := questions_data;
     current_question_index := 0;
     user_answers := [];
     score := 0;
     quiz_started := true |}.

(** The record at the current index, or [None]. *)
Definition get_current_question (self : QuizManager) : pyval :=
  if (0 <=? current_question_index self) &&
     (current_question_index self <? Z.of_nat (length (questions self)))
  then nth (Z.to_nat (current_question_index self)) (questions self) PyNone
  else PyNone.

(** The dictionary appended to [user_answers]. *)
Definition answer_entry (question options : pyval) (chosen_option : text)
  (correct_answer : pyval) (is_correct : bool) (explanation : pyval) : dict :=
  [ (str "question", question);
    (str "options", options);
    (str "chosen_answer", PyStr chosen_option);
    (str "correct_answer", correct_answer);
    (str "is_correct", PyBool is_correct);
    (str "explanation", explanation) ].

Definition submit_answer (chosen_option : text) : method (pyval * pyval) :=
  qs <- read questions ;;
  if negb (py_truthy (PyList qs)) then mret (PyNone, PyNone)
  else
    current_q <- read get_current_question ;;
    if negb (py_truthy current_q) then mret (PyNone, PyNone)
    else
      correct_answer <- lift (py_getitem current_q (str "correct_answer")) ;;
      let is_correct := py_eq (PyStr chosen_option) correct_answer in
      (if is_correct
       then update (fun self => set_score (score self + 1) self)
       else mret tt) ;;;
      question <- lift (py_getitem current_q (str "question")) ;;
      options <- lift (py_getitem current_q (str "options")) ;;
      explanation <- lift (py_getitem current_q (str "explanation")) ;;
      update (fun self =>
                set_user_answers
                  (user_answers self ++
                   [answer_entry question options chosen_option
                      correct_answer is_correct explanation]) self) ;;;
      update (fun self =>
                set_current_question_index
                  (current_question_index self + 1) self) ;;;
      explanation' <- lift (py_getitem current_q (str "explanation")) ;;
      mret (PyBool is_correct, explanation').

Definition is_quiz_finished (self : QuizManager) : bool :=
  current_question_index self >=? Z.of_nat (length (questions self)).

Definition get_score_summary (self : QuizManager) : Z * Z * Z :=
  let total_questions := Z.of_nat (length (questions self)) in
  let correct_count := score self in
  let incorrect_count := total_questions - score self in
  (total_questions, correct_count, incorrect_count).

Definition reset_quiz (self : QuizManager) : QuizManager :=
  {| questions := [];
     current_question_index := 0;
     user_answers := [];
     score := 0;
     quiz_started := false |}.

(** The calls a client can make on a session, and the session after a
    sequence of them (whether a call returned or raised). *)
Inductive call :=
| Load (questions_data : list pyval)
| Submit (chosen_option : text)
| Reset.

Definition after_call (self : QuizManager) (c : call) : QuizManager :=
  match c with
  | Load questions_data => load_questions self questions_data
  | Submit chosen_option => fst (submit_answer chosen_option self)
  | Reset => reset_quiz self
  end.

Definition run (calls : list call) : QuizManager :=
  fold_left after_call calls new.

(** A question record as the validation loop of the provider admits it:
    a dictionary with the four fields. *)
Definition has_fields (q : pyval) : Prop :=
  exists d question options correct_answer explanation,
    q = PyDict d /\
    dict_get d (str "question") = Some question /\
    dict_get d (str "options") = Some options /\
    dict_get d (str "correct_answer") = Some correct_answer /\
    dict_get d (str "explanation") = Some explanation.

Definition well_formed_call (c : call) : Prop :=
  match c with
  | Load questions_data => Forall has_fields questions_data
  | _ => True
  end.

(** The number of entries of the answer log whose [is_correct] is true. *)
Definition entry_is_correct (entry : dict) : bool :=
  match dict_get entry (str "is_correct") with
  | Some (PyBool true) => true
  | _ => false
  end.

Definition count_correct (answers : list dict) : Z :=
  Z.of_nat (length (filter entry_is_correct answers)).

(** The answer log is as long as the index says, and the index is within
    the questions. *)
Definition log_matches_index (self : QuizManager) : Prop :=
  Z.of_nat (length (user_answers self)) = current_question_index self /\
  current_question_index self <= Z.of_nat (length (questions self)).

(** The invariant behind the score summary: every loaded question has the
    four fields, and the score counts the correct entries of the log. *)
Definition score_counts_log (self : QuizManager) : Prop :=
  Forall has_fields (questions self) /\
  score self = count_correct (user_answers self).

(** A log entry records a question: it carries the record's question,
    options, correct answer and explanation, the chosen string, and as
    [is_correct] the outcome of comparing the chosen string with the correct
    answer. *)
Definition entry_records (q : pyval) (entry : dict) : Prop :=
  exists d chosen correct_answer,
    q = PyDict d /\
    dict_get d (str "correct_answer") = Some correct_answer /\
    dict_get entry (str "question") = dict_get d (str "question") /\
    dict_get entry (str "options") = dict_get d (str "options") /\
    dict_get entry (str "correct_answer") = Some correct_answer /\
    dict_get entry (str "explanation") = dict_get d (str "explanation") /\
    dict_get entry (str "chosen_answer") = Some (PyStr chosen) /\
    dict_get entry (str "is_correct") =
      Some (PyBool (py_eq (PyStr chosen) correct_answer)).

(** The session after a series of submissions. *)
Definition submit_all (self : QuizManager) (choices : list text)
  : QuizManager :=
  fold_left after_call (map Submit choices) self.

(** Every entry of the log records the question at its position. *)
Definition log_records_questions (self : QuizManager) : Prop :=
  Forall2 entry_records
    (firstn (length (user_answers self)) (questions self))
    (user_answers self).

(** An entry as [submit_answer] builds it. *)
Definition built_entry (entry : dict) : Prop :=
  exists question options chosen_option correct_answer is_correct explanation,
    entry = answer_entry question options chosen_option correct_answer
              is_correct explanation.

End QuizLogic.

(** ** [file_exporter.py]: the tabular export *)

Module FileExporter.
Import Py.

Local Notation "x <- m ;; k" := (bind m (fun x => k))
  (at level 61, m at next level, right associativity).

(** A data frame: the column labels and, per row, one cell per column.
    Cells hold the values of the records as they are.  That is what pandas
    keeps for a column of strings, lists or dictionaries and for a column
    of booleans; for a column of numbers pandas infers a numeric type (an
    integer beside a float or [None] becomes a float, [None] becomes NaN),
    and that conversion is not part of this model.  The labels, the number
    of rows and the cells of the [options] column that can be joined are
    not touched by it. *)
Record DataFrame := {
  columns : list text;
  rows : list (list pyval)
}.

Definition add_label (cols : list text) (k : text) : list text :=
  if existsb (text_eqb k) cols then cols else cols ++ [k].

(** [pd.DataFrame(records)] on a list of dictionaries: the columns are the
    keys in the order of their first appearance, a key a record lacks gives
    a NaN cell, and the empty list gives a frame without columns. *)
Definition frame_labels (records : list dict) : list text :=
  fold_left (fun cols d => fold_left add_label (map fst d) cols) records [].

Definition frame_row (cols : list text) (d : dict) : list pyval :=
  map (fun c => match dict_get d c with
                | Some v => v
                | None => PyFloat F_nan
                end) cols.

Definition data_frame (records : list dict) : DataFrame :=
  let cols := frame_labels records in
  {| columns := cols; rows := map (frame_row cols) records |}.

Fixpoint column_index (cols : list text) (label : text) : option nat :=
  match cols with
  | [] => None
  | c :: cols' =>
      if text_eqb label c then Some O
      else option_map S (column_index cols' label)
  end.

Fixpoint all_str (l : list pyval) : result (list text) :=
  match l with
  | [] => ret []
  | PyStr s :: l' => rest <- all_str l' ;; ret (s :: rest)
  | _ :: _ => raise TypeError
  end.

(** [sep.join(x)]: [x] must be iterable and yield strings. *)
Definition str_join (sep : text) (x : pyval) : result text :=
  match x with
  | PyList l => parts <- all_str l ;; ret (join sep parts)
  | PyStr s => ret (join sep (map (fun c => [c]) s))
  | PyDict d => ret (join sep (map fst d))
  | _ => raise TypeError
  end.

Fixpoint set_nth {A} (i : nat) (v : A) (l : list A) : list A :=
  match i, l with
  | _, [] => []
  | O, _ :: l' => v :: l'
  | S i', x :: l' => x :: set_nth i' v l'
  end.

(** [df[label] = df[label].apply(f)], one row at a time. *)
Fixpoint apply_column (f : pyval -> result pyval) (i : nat)
  (rs : list (list pyval)) : result (list (list pyval)) :=
  match rs with
  | [] => ret []
  | r :: rs' =>
      v <- f (nth i r (PyFloat F_nan)) ;;
      rest <- apply_column f i rs' ;;
      ret (set_nth i v r :: rest)
  end.

(** A surrogate code point: the UTF-8 encoder refuses it. *)
Definition is_surrogate (c : char) : bool :=
  ((55296 <=? c) && (c <=? 57343))%N.

Definition encodable (s : text) : bool := negb (existsb is_surrogate s).

(** A string cell is written as it is; any other cell is written through
    [str], which leaves no surrogate behind (strings inside a list or a
    dictionary are written escaped). *)
Definition cell_encodable (v : pyval) : bool :=
  match v with
  | PyStr s => encodable s
  | _ => true
  end.

(** [df.to_csv(csv_buffer, index=False)]: the header and the rows are
    written to the buffer as UTF-8 text, which raises [UnicodeEncodeError]
    when a label or a string cell holds a surrogate.  The text itself
    (separators, quoting, the spelling of numbers) belongs to pandas and is
    not modelled: a frame that is returned stands for the buffer that holds
    its text. *)
Definition to_csv (df : DataFrame) : result DataFrame :=
  if forallb encodable (columns df) &&
     forallb (forallb cell_encodable) (rows df)
  then ret df else raise UnicodeEncodeError.

(** [export_to_csv].  Taking the column [options] of a frame that has no
    such column raises [KeyError]; joining a cell that is no iterable of
    strings raises [TypeError]. *)
Definition export_to_csv (quiz_results : list dict) : result DataFrame :=
  let df := data_frame quiz_results in
  match column_index (columns df) (str "options") with
  | None => raise KeyError
  | Some i =>
      new_rows <- apply_column
                    (fun x => s <- str_join (str "; ") x ;; ret (PyStr s))
                    i (rows df) ;;
      to_csv {| columns := columns df; rows := new_rows |}
  end.

(** The content of a log entry whose options are strings, and the entry
    [submit_answer] builds from it. *)
Record answer := {
  a_question : pyval;
  a_options : list text;
  a_chosen : text;
  a_correct : pyval;
  a_is_correct : bool;
  a_explanation : pyval
}.

Definition entry_of (a : answer) : dict :=
  QuizLogic.answer_entry (a_question a) (PyList (map PyStr (a_options a)))
    (a_chosen a) (a_correct a) (a_is_correct a) (a_explanation a).

Definition entry_labels : list text :=
  [str "question"; str "options"; str "chosen_answer"; str "correct_answer";
   str "is_correct"; str "explanation"].

(** The row of the table for an entry: the options joined, the other five
    fields as they are. *)
Definition row_of (a : answer) : list pyval :=
  [a_question a; PyStr (join (str "; ") (a_options a)); PyStr (a_chosen a);
   a_correct a; PyBool (a_is_correct a); a_explanation a].

(** A value that is a string without surrogates. *)
Definition plain_text (v : pyval) : Prop :=
  exists s, v = PyStr s /\ encodable s = true.

(** An entry all of whose values are such strings (and the flag). *)
Definition plain_answer (a : answer) : Prop :=
  plain_text (a_question a) /\
  Forall (fun o => encodable o = true) (a_options a) /\
  encodable (a_chosen a) = true /\
  plain_text (a_correct a) /\
  plain_text (a_explanation a).

End FileExporter.

(** ** [app.py]: the callers of the provider and of the session *)

Module App.
Import Py.

(** [get_answer_value]: the value under the first of the keys that the
    entry has, or the string [N/A]. *)
Fixpoint get_answer_value (answer : dict) (key_options : list text)
  : pyval :=
  match key_options with
  | [] => PyStr (str "N/A")
  | key :: rest =>
      if dict_has answer key then
        match dict_get answer key with
        | Some v => v
        | None => get_answer_value answer rest
        end
      else get_answer_value answer rest
  end.

(** The key lists with which the results page looks up the user's answer
    and the correct answer of an entry. *)
Definition user_answer_keys : list text :=
  [str "selected_option"; str "user_answer"; str "selected"; str "answer"].

Definition correct_answer_keys : list text :=
  [str "correct_answer"; str "correct_option"; str "correct"].

(** [st.session_state], a mapping from keys to values. *)
Definition session_state := dict.

Definition default_values : dict :=
  [ (str "quiz_started", PyBool false);
    (str "feedback_shown", PyBool false);
    (str "selected_option", PyNone);
    (str "answer_submitted", PyBool false);
    (str "show_next_button", PyBool false);
    (str "current_topic", PyStr (str ""));
    (str "quiz_topic", PyStr (str ""));
    (str "num_questions", PyInt 5) ].

(** [initialize_session_state]: a default is stored only under a key the
    state does not have yet. *)
Definition initialize_session_state (st : session_state) : session_state :=
  fold_left
    (fun st kv => if dict_has st (fst kv) then st
                  else dict_set st (fst kv) (snd kv))
    default_values st.

Definition keys_to_reset : list text :=
  [str "quiz_started"; str "feedback_shown"; str "selected_option";
   str "answer_submitted"; str "show_next_button"; str "current_topic"].

(** [s.endswith(suffix)]. *)
Definition ends_with (suffix s : text) : bool :=
  starts_with (rev suffix) (rev s).

(** The value a key is reset to: [False] for a key that contains [button]
    or ends with [_shown] or [_started], [None] for any other. *)
Definition reset_value (key : text) : pyval :=
  if is_substring (str "button") key || ends_with (str "_shown") key ||
     ends_with (str "_started") key
  then PyBool false else PyNone.

(** [reset_quiz_state]. *)
Definition reset_quiz_state (st : session_state) : session_state :=
  let st1 :=
    fold_left
      (fun st key => if dict_has st key then dict_set st key (reset_value key)
                     else st)
      keys_to_reset st in
  if dict_has st1 (str "current_topic")
  then dict_set st1 (str "current_topic") (PyStr (str ""))
  else st1.

(** The model behind the service answers anew at every call: [b k] is its
    behaviour at the call number [k] of a run.  Functions that call the
    service take the number of the next call and return, with their result,
    the number of the call after their last. *)
Definition backend := nat -> LLMService.prompt -> result text.

Definition service_at (b : backend) (k : nat) : LLMService.LLMService :=
  {| LLMService.generate_content := b k |}.

(** [generate_questions_safely] on the service of this program, whose
    method has the two parameters [topic] and [num_questions].
    [complains k] tells whether the message of a [TypeError] raised by call
    [k] contains [unexpected keyword argument].  After such a complaint the
    call is repeated with positional arguments; a [TypeError] of that
    second call is raised again (the method has two parameters, not one),
    and so is, inside the handler, any other exception of it.  Any other
    exception of the first call gives [None]. *)
Definition generate_questions_safely (complains : nat -> bool) (b : backend)
  (k : nat) (topic : text) (num_questions : Z)
  : nat * result (option (list pyval)) :=
  match LLMService.generate_quiz_questions (service_at b k) topic
          num_questions with
  | inr questions => (S k, ret (Some questions))
  | inl TypeError =>
      if complains k then
        match LLMService.generate_quiz_questions (service_at b (S k)) topic
                num_questions with
        | inr questions => (S (S k), ret (Some questions))
        | inl e2 => (S (S k), raise e2)
        end
      else (S k, raise TypeError)
  | inl _ => (S k, ret None)
  end.

(** [range(n)]. *)
Definition py_range (n : Z) : list Z :=
  map Z.of_nat (seq 0 (Z.to_nat n)).

(** What an attempt that produced a non-empty list returns. *)
Definition retry_result (questions : list pyval) (num_questions : Z)
  : list pyval :=
  if Z.of_nat (length questions) =? num_questions then questions
  else if Z.of_nat (length questions) >? num_questions
       then slice_to questions num_questions
       else questions.

(** The loop of [generate_questions_with_retry] over the attempts that are
    left.  An attempt that gives nothing, or raises, goes on to the next one
    unless it is the last. *)
Fixpoint retry_loop (complains : nat -> bool) (b : backend) (topic : text)
  (num_questions max_retries : Z) (attempts : list Z) (k : nat)
  : nat * option (list pyval) :=
  match attempts with
  | [] => (k, None)
  | attempt :: rest =>
      let go_on (k' : nat) :=
        if attempt <? max_retries - 1
        then retry_loop complains b topic num_questions max_retries rest k'
        else (k', None) in
      match generate_questions_safely complains b k topic num_questions with
      | (k', inr (Some questions)) =>
          if py_truthy (PyList questions)
          then (k', Some (retry_result questions num_questions))
          else go_on k'
      | (k', inr None) => go_on k'
      | (k', inl _) => go_on k'
      end
  end.

Definition generate_questions_with_retry (complains : nat -> bool)
  (b : backend) (topic : text) (num_questions max_retries : Z) (k : nat)
  : nat * option (list pyval) :=
  retry_loop complains b topic num_questions max_retries
    (py_range max_retries) k.

(** The topic page of [main] when a popular-topic button is pressed, as
    far as it touches the session state and the quiz manager: the value of
    the number selector is stored, then the topic; questions are generated
    with the default three attempts; a result that is not empty is loaded
    and starts the quiz. *)
Definition choose_topic (complains : nat -> bool) (b : backend) (k : nat)
  (selected_number : Z) (topic : text) (st : session_state)
  (quiz_manager : QuizLogic.QuizManager)
  : nat * session_state * QuizLogic.QuizManager :=
  let st := dict_set st (str "num_questions") (PyInt selected_number) in
  let st := dict_set st (str "current_topic") (PyStr topic) in
  match generate_questions_with_retry complains b topic selected_number 3 k
  with
  | (k', Some (q :: questions_data)) =>
      let quiz_manager :=
        QuizLogic.load_questions quiz_manager (q :: questions_data) in
      let st := dict_set st (str "quiz_started") (PyBool true) in
      let st := reset_quiz_state st in
      let st := dict_set st (str "quiz_started") (PyBool true) in
      (k', st, quiz_manager)
  | (k', _) => (k', st, quiz_manager)
  end.

(** The first of [attempts] calls of the provider, from call [k] on, that
    returns a list that is not empty, with the number of the call after
    it; [None] after [attempts] calls without one. *)
Fixpoint first_success (b : backend) (topic : text) (num_questions : Z)
  (attempts : nat) (k : nat) : nat * option (list pyval) :=
  match attempts with
  | O => (k, None)
  | S attempts' =>
      match LLMService.generate_quiz_questions (service_at b k) topic
              num_questions with
      | inr (q :: questions) => (S k, Some (q :: questions))
      | _ => first_success b topic num_questions attempts' (S k)
      end
  end.

End App.

(** * Properties *)

(** ** Python values *)

Section PyFacts.
Import Py.

Lemma text_eqb_refl (a : text) : text_eqb a a = true.
Proof.
  induction a as [|x a IH]; simpl; [reflexivity|].
  now rewrite N.eqb_refl, IH.
Qed.

Lemma text_eqb_eq (a b : text) : text_eqb a b = true <-> a = b.
Proof.
  split.
  - revert b; induction a as [|x a IH]; intros [|y b] H; simpl in H;
      try discriminate; [reflexivity|].
    apply andb_true_iff in H as [Hx Hab].
    apply N.eqb_eq in Hx. apply IH in Hab. now subst.
  - intros ->. apply text_eqb_refl.
Qed.

(** On a string, [==] is equality of the code point sequences: the other
    operand must be the same string. *)
Lemma py_eq_str (s : text) (v : pyval) :
  py_eq (PyStr s) v = true <-> v = PyStr s.
Proof.
  split.
  - destruct v as [| | |f|t| |]; simpl; try discriminate.
    + destruct f; discriminate.
    + intros H. apply text_eqb_eq in H. now subst.
  - intros ->. simpl. apply text_eqb_refl.
Qed.

Lemma py_eqb_str (s : text) (v : pyval) :
  py_eqb v (PyStr s) = true <-> v = PyStr s.
Proof.
  split.
  - destruct v as [| | |f|t| |]; simpl; try discriminate.
    + destruct f; discriminate.
    + intros H. apply text_eqb_eq in H. now subst.
  - intros ->. simpl. apply text_eqb_refl.
Qed.

Lemma slice_to_firstn {A} (l : list A) (n : Z) :
  0 <= n -> slice_to l n = firstn (Z.to_nat n) l.
Proof.
  intros Hn. unfold slice_to.
  destruct (0 <=? n) eqn:E; [reflexivity|].
  apply Z.leb_gt in E. lia.
Qed.

End PyFacts.

(** ** The quiz session *)

Section QuizSession.
Import Py QuizLogic.

Lemma get_current_question_in_range (self : QuizManager) :
  0 <= current_question_index self < Z.of_nat (length (questions self)) ->
  get_current_question self =
  nth (Z.to_nat (current_question_index self)) (questions self) PyNone.
Proof.
  intros [Hlo Hhi]. unfold get_current_question.
  apply Z.leb_le in Hlo. apply Z.ltb_lt in Hhi.
  now rewrite Hlo, Hhi.
Qed.

Lemma get_current_question_past_end (self : QuizManager) :
  Z.of_nat (length (questions self)) <= current_question_index self ->
  get_current_question self = PyNone.
Proof.
  intros H. unfold get_current_question.
  apply Z.ltb_ge in H. rewrite H. now rewrite andb_false_r.
Qed.

Lemma truthy_question_in_range (self : QuizManager) :
  py_truthy (get_current_question self) = true ->
  0 <= current_question_index self < Z.of_nat (length (questions self)).
Proof.
  unfold get_current_question.
  destruct (0 <=? current_question_index self) eqn:Hlo;
    destruct (current_question_index self <?
              Z.of_nat (length (questions self))) eqn:Hhi;
    simpl; try discriminate.
  intros _. apply Z.leb_le in Hlo. apply Z.ltb_lt in Hhi. lia.
Qed.

(** C7.  [load_questions] sets the index to 0 and clears the answer log
    and the score.  With a non-empty list the session is in progress: the
    quiz is not finished and the current question is the first record.
    With the empty list the quiz is finished at once, with no question. *)
Theorem load_questions_resets (self : QuizManager) :
  (forall questions_data,
      let s := load_questions self questions_data in
      questions s = questions_data /\
      current_question_index s = 0 /\
      user_answers s = [] /\
      score s = 0 /\
      quiz_started s = true) /\
  (forall q rest,
      let s := load_questions self (q :: rest) in
      is_quiz_finished s = false /\
      0 <= current_question_index s < Z.of_nat (length (questions s)) /\
      get_current_question s = q) /\
  (let s := load_questions self [] in
   is_quiz_finished s = true /\
   length (questions s) = 0%nat /\
   get_current_question s = PyNone).
Proof.
  split; [|split].
  - intros qd. simpl. repeat split.
  - intros q rest. cbv zeta.
    unfold is_quiz_finished, get_current_question. simpl questions.
    simpl current_question_index. simpl length.
    assert (Hlt : (0 <? Z.of_nat (S (length rest))) = true)
      by (apply Z.ltb_lt; lia).
    split; [|split; [lia|]].
    + rewrite Z.geb_leb. apply Z.leb_gt. lia.
    + rewrite Hlt. reflexivity.
  - cbv zeta. repeat split.
Qed.

Lemma finished_submit_is_noop (self : QuizManager)
  (chosen_option : text) :
  questions self = [] \/
  Z.of_nat (length (questions self)) <= current_question_index self ->
  submit_answer chosen_option self = (self, inr (PyNone, PyNone)).
Proof.
  intros H. unfold submit_answer, mbind, read, mret.
  destruct (questions self) as [|q qs] eqn:Hq.
  - reflexivity.
  - destruct H as [H|H]; [discriminate|].
    cbn [py_truthy length Nat.eqb negb].
    rewrite get_current_question_past_end; [reflexivity|].
    now rewrite Hq.
Qed.

(** C4.  With no question loaded, or with the index at or past the number
    of questions, [submit_answer] returns the pair [(None, None)], raises
    nothing and leaves every attribute of the session as it was. *)
Theorem submit_answer_when_finished (self : QuizManager)
  (chosen_option : text) :
  questions self = [] \/
  Z.of_nat (length (questions self)) <= current_question_index self ->
  submit_answer chosen_option self = (self, inr (PyNone, PyNone)).
Proof. exact (finished_submit_is_noop self chosen_option). Qed.

(** The witness: a session that has answered its single question. *)
Lemma submit_answer_when_finished_witness :
  let self := {| questions := [PyDict []];
                 current_question_index := 1;
                 user_answers := [];
                 score := 0;
                 quiz_started := true |} in
  submit_answer (str "A") self = (self, inr (PyNone, PyNone)).
Proof.
  intros self.
  apply (submit_answer_when_finished self (str "A")).
  right. simpl. lia.
Defined.

(** One successful submission, attribute by attribute. *)
Lemma submit_answer_step (self : QuizManager) (chosen_option : text)
  (d : dict) (question options correct_answer explanation : pyval) :
  0 <= current_question_index self < Z.of_nat (length (questions self)) ->
  nth (Z.to_nat (current_question_index self)) (questions self) PyNone
    = PyDict d ->
  dict_get d (str "question") = Some question ->
  dict_get d (str "options") = Some options ->
  dict_get d (str "correct_answer") = Some correct_answer ->
  dict_get d (str "explanation") = Some explanation ->
  let is_correct := py_eq (PyStr chosen_option) correct_answer in
  (is_correct = true <-> correct_answer = PyStr chosen_option) /\
  submit_answer chosen_option self =
    ({| questions := questions self;
        current_question_index := current_question_index self + 1;
        user_answers :=
          user_answers self ++
          [answer_entry question options chosen_option correct_answer
             is_correct explanation];
        score := if is_correct then score self + 1 else score self;
        quiz_started := quiz_started self |},
     inr (PyBool is_correct, explanation)).
Proof.
  intros Hidx Hnth Hq Ho Hc He is_correct.
  split; [apply py_eq_str|].
  unfold submit_answer, mbind, read, lift, mret, update.
  destruct (questions self) as [|q0 qs] eqn:Hqs.
  { simpl in Hidx. lia. }
  cbn [py_truthy length Nat.eqb negb].
  rewrite get_current_question_in_range by (now rewrite Hqs).
  rewrite Hqs, Hnth.
  assert (Hd : py_truthy (PyDict d) = true).
  { destruct d; [discriminate Hq|reflexivity]. }
  rewrite Hd. cbn [negb]. unfold py_getitem, ret.
  rewrite Hc. fold is_correct.
  destruct is_correct; cbn [set_score questions]; rewrite Hq, Ho, He;
    unfold set_current_question_index, set_user_answers, set_score;
    cbn [questions current_question_index user_answers score quiz_started];
    rewrite ?Hqs; reflexivity.
Qed.

(** C3.  In a session whose index is within the loaded questions, on a
    record with the four fields, [submit_answer] compares the chosen string
    with [correct_answer] by equality of strings, appends one entry to the
    log, moves the index on by one, adds one to the score when the
    comparison holds, and returns the outcome and the explanation.  The
    entry has the six keys [question], [options], [chosen_answer],
    [correct_answer], [is_correct] and [explanation], in this order:
    [question], [options], [correct_answer] and [explanation] hold the
    values of the record, [chosen_answer] the chosen string and
    [is_correct] the outcome of the comparison. *)
Theorem submit_answer_in_progress (self : QuizManager) (chosen_option : text)
  (d : dict) (question options correct_answer explanation : pyval) :
  0 <= current_question_index self < Z.of_nat (length (questions self)) ->
  nth (Z.to_nat (current_question_index self)) (questions self) PyNone
    = PyDict d ->
  dict_get d (str "question") = Some question ->
  dict_get d (str "options") = Some options ->
  dict_get d (str "correct_answer") = Some correct_answer ->
  dict_get d (str "explanation") = Some explanation ->
  let is_correct := py_eq (PyStr chosen_option) correct_answer in
  (is_correct = true <-> correct_answer = PyStr chosen_option) /\
  exists entry : dict,
    submit_answer chosen_option self =
      ({| questions := questions self;
          current_question_index := current_question_index self + 1;
          user_answers := user_answers self ++ [entry];
          score := if is_correct then score self + 1 else score self;
          quiz_started := quiz_started self |},
       inr (PyBool is_correct, explanation)) /\
    map fst entry =
      [str "question"; str "options"; str "chosen_answer";
       str "correct_answer"; str "is_correct"; str "explanation"] /\
    dict_get entry (str "question") = Some question /\
    dict_get entry (str "options") = Some options /\
    dict_get entry (str "chosen_answer") = Some (PyStr chosen_option) /\
    dict_get entry (str "correct_answer") = Some correct_answer /\
    dict_get entry (str "is_correct") = Some (PyBool is_correct) /\
    dict_get entry (str "explanation") = Some explanation.
Proof.
  intros Hidx Hnth Hq Ho Hc He is_correct.
  destruct (submit_answer_step self chosen_option d question options
              correct_answer explanation Hidx Hnth Hq Ho Hc He)
    as [Hiff Hstep].
  split; [exact Hiff|].
  eexists. split; [exact Hstep|].
  repeat split.
Qed.

Lemma submit_answer_in_progress_witness :
  let q := LLMService.question_dict "Q" ["A"; "B"; "C"; "D"]%string "A" "E" in
  let self := load_questions new [q] in
  let options :=
    PyList (map (fun o => PyStr (str o)) ["A"; "B"; "C"; "D"]%string) in
  let is_correct := py_eq (PyStr (str "A")) (PyStr (str "A")) in
  (is_correct = true <-> PyStr (str "A") = PyStr (str "A")) /\
  exists entry : dict,
    submit_answer (str "A") self =
      ({| questions := questions self;
          current_question_index := current_question_index self + 1;
          user_answers := user_answers self ++ [entry];
          score := if is_correct then score self + 1 else score self;
          quiz_started := quiz_started self |},
       inr (PyBool is_correct, PyStr (str "E"))) /\
    map fst entry =
      [str "question"; str "options"; str "chosen_answer";
       str "correct_answer"; str "is_correct"; str "explanation"] /\
    dict_get entry (str "question") = Some (PyStr (str "Q")) /\
    dict_get entry (str "options") = Some options /\
    dict_get entry (str "chosen_answer") = Some (PyStr (str "A")) /\
    dict_get entry (str "correct_answer") = Some (PyStr (str "A")) /\
    dict_get entry (str "is_correct") = Some (PyBool is_correct) /\
    dict_get entry (str "explanation") = Some (PyStr (str "E")).
Proof.
  intros q self options is_correct.
  refine (submit_answer_in_progress self (str "A")
            [ (str "question", PyStr (str "Q"));
              (str "options", options);
              (str "correct_answer", PyStr (str "A"));
              (str "explanation", PyStr (str "E")) ]
            (PyStr (str "Q")) options
            (PyStr (str "A")) (PyStr (str "E")) _ _ _ _ _ _).
  - simpl. lia.
  - reflexivity.
  - reflexivity.
  - reflexivity.
  - reflexivity.
  - reflexivity.
Defined.

(** What a call of [submit_answer] does to the log and the index, whether
    it returns or raises: nothing, or one entry more and the index one
    further, the latter only from an index within the questions. *)
Lemma submit_answer_effect (chosen_option : text) (self : QuizManager) :
  let s := fst (submit_answer chosen_option self) in
  questions s = questions self /\
  ((user_answers s = user_answers self /\
    current_question_index s = current_question_index self) \/
   (0 <= current_question_index self < Z.of_nat (length (questions self)) /\
    current_question_index s = current_question_index self + 1 /\
    exists entry, user_answers s = user_answers self ++ [entry])).
Proof.
  cbv zeta. unfold submit_answer, mbind, read, lift, mret, update.
  destruct (negb (py_truthy (PyList (questions self)))); [simpl; auto|].
  destruct (py_truthy (get_current_question self)) eqn:Ht; [|simpl; auto].
  apply truthy_question_in_range in Ht.
  cbn [negb].
  destruct (py_getitem (get_current_question self) (str "correct_answer"))
    as [e|correct_answer]; [simpl; auto|].
  destruct (py_eq (PyStr chosen_option) correct_answer);
    repeat match goal with
           | |- context [py_getitem ?q ?k] =>
               destruct (py_getitem q k); [solve [simpl; auto]|]
           end;
    cbn -[Z.add]; (split; [reflexivity|right; split; [exact Ht|]]);
    (split; [reflexivity|eexists; reflexivity]).
Qed.

Lemma log_matches_index_after_call (self : QuizManager) (c : call) :
  log_matches_index self -> log_matches_index (after_call self c).
Proof.
  intros [Hlen Hle]. destruct c as [qd|chosen|]; simpl.
  - split; simpl; lia.
  - destruct (submit_answer_effect chosen self) as [Hq [[Ha Hi]|[Hr [Hi [e Ha]]]]];
      unfold log_matches_index; rewrite Hq, Ha, Hi.
    + split; assumption.
    + rewrite length_app. simpl. split; lia.
  - split; simpl; lia.
Qed.

Lemma log_matches_index_fold (calls : list call) (self : QuizManager) :
  log_matches_index self ->
  log_matches_index (fold_left after_call calls self).
Proof.
  revert self. induction calls as [|c calls IH]; intros self H; simpl.
  - exact H.
  - apply IH, log_matches_index_after_call, H.
Qed.

(** C10.  After any sequence of [load_questions], [submit_answer] and
    [reset_quiz] calls on a new session, the answer log is as long as the
    current index, and the index is at most the number of loaded
    questions. *)
Theorem answers_match_index (calls : list call) :
  Z.of_nat (length (user_answers (run calls))) =
    current_question_index (run calls) /\
  current_question_index (run calls) <=
    Z.of_nat (length (questions (run calls))).
Proof.
  apply (log_matches_index_fold calls new).
  split; simpl; lia.
Qed.

Lemma entry_is_correct_answer_entry question options chosen_option
  correct_answer is_correct explanation :
  entry_is_correct
    (answer_entry question options chosen_option correct_answer is_correct
       explanation) = is_correct.
Proof. destruct is_correct; reflexivity. Qed.

Lemma count_correct_app (answers : list dict) (entry : dict) :
  count_correct (answers ++ [entry]) =
  count_correct answers + (if entry_is_correct entry then 1 else 0).
Proof.
  unfold count_correct. rewrite filter_app, length_app. simpl.
  destruct (entry_is_correct entry); simpl; lia.
Qed.

Lemma score_counts_log_after_call (self : QuizManager) (c : call) :
  well_formed_call c ->
  score_counts_log self -> score_counts_log (after_call self c).
Proof.
  intros Hc [Hwf Hscore]. destruct c as [qd|chosen|]; simpl.
  - split; [exact Hc|reflexivity].
  - destruct (Z_lt_le_dec (current_question_index self) 0) as [Hneg|Hpos].
    { (* a negative index: no current question *)
      assert (Hs : submit_answer chosen self = (self, inr (PyNone, PyNone))).
      { unfold submit_answer, mbind, read, mret.
        destruct (negb (py_truthy (PyList (questions self)))); [reflexivity|].
        unfold get_current_question.
        replace (0 <=? current_question_index self) with false
          by (symmetry; apply Z.leb_gt; exact Hneg).
        reflexivity. }
      rewrite Hs. split; assumption. }
    destruct (Z_lt_le_dec (current_question_index self)
                (Z.of_nat (length (questions self)))) as [Hin|Hout].
    + assert (Hq : has_fields
                     (nth (Z.to_nat (current_question_index self))
                        (questions self) PyNone)).
      { eapply Forall_forall; [exact Hwf|]. apply nth_In. lia. }
      destruct Hq as (d & qv & ov & cv & ev & Hd & Hqv & Hov & Hcv & Hev).
      destruct (submit_answer_step self chosen d qv ov cv ev
                  (conj Hpos Hin) Hd Hqv Hov Hcv Hev) as [_ Hs].
      rewrite Hs. split; cbn [fst questions score user_answers];
        [exact Hwf|].
      rewrite count_correct_app, entry_is_correct_answer_entry, Hscore.
      destruct (py_eq (PyStr chosen) cv); lia.
    + rewrite finished_submit_is_noop by (right; exact Hout).
      split; assumption.
  - split; [constructor|reflexivity].
Qed.

Lemma score_counts_log_fold (calls : list call) (self : QuizManager) :
  Forall well_formed_call calls ->
  score_counts_log self ->
  score_counts_log (fold_left after_call calls self).
Proof.
  revert self. induction calls as [|c calls IH]; intros self Hc H; simpl.
  - exact H.
  - inversion Hc; subst.
    apply IH; [assumption|]. now apply score_counts_log_after_call.
Qed.

(** C2.  After any sequence of calls in which the loaded records have the
    four fields, [get_score_summary] returns the number of loaded
    questions, the number of log entries whose [is_correct] is true, and
    the difference of the two, whether or not every question has been
    answered. *)
Theorem get_score_summary_counts (calls : list call) :
  Forall well_formed_call calls ->
  let self := run calls in
  score self = count_correct (user_answers self) /\
  get_score_summary self =
    (Z.of_nat (length (questions self)),
     count_correct (user_answers self),
     Z.of_nat (length (questions self)) - count_correct (user_answers self)).
Proof.
  intros Hc self.
  destruct (score_counts_log_fold calls new Hc) as [_ Hscore].
  { split; [constructor|reflexivity]. }
  fold (run calls) in Hscore. fold self in Hscore.
  split; [exact Hscore|].
  unfold get_score_summary. now rewrite Hscore.
Qed.

(** The witness: two questions loaded, the first answered correctly, the
    second not answered. *)
Lemma get_score_summary_counts_witness :
  let q := LLMService.question_dict "Q" ["A"; "B"; "C"; "D"]%string "A" "E" in
  let self := run [Load [q; q]; Submit (str "A")] in
  score self = count_correct (user_answers self) /\
  get_score_summary self =
    (Z.of_nat (length (questions self)),
     count_correct (user_answers self),
     Z.of_nat (length (questions self)) - count_correct (user_answers self)).
Proof.
  intros q.
  apply (get_score_summary_counts [Load [q; q]; Submit (str "A")]).
  repeat constructor;
    exists [ (str "question", PyStr (str "Q"));
             (str "options",
              PyList (map (fun o => PyStr (str o)) ["A"; "B"; "C"; "D"]%string));
             (str "correct_answer", PyStr (str "A"));
             (str "explanation", PyStr (str "E")) ];
    do 4 eexists; repeat split; reflexivity.
Defined.

End QuizSession.

(** ** The regular-expression matcher *)

Section RegexFacts.
Import Py Re.

Lemma shrinking_Some : shrinking Some.
Proof. intros s rest H. injection H as ->. lia. Qed.

Lemma star_loop_shrinking body k :
  (forall k', shrinking k' -> shrinking (fun s => body s k')) ->
  shrinking k ->
  forall n, shrinking (star_loop body k n).
Proof.
  intros Hbody Hk n. induction n as [|n IH]; intros s rest H; simpl in H.
  - now apply Hk.
  - destruct (body s _) as [rest'|] eqn:E.
    + injection H as ->.
      revert E. apply Hbody.
      intros s' r. destruct (Nat.ltb _ _) eqn:L; [|discriminate].
      intros Hs. apply IH in Hs. exact Hs.
    + now apply Hk.
Qed.

Lemma rmatch_shrinking (r : regex) :
  forall k, shrinking k -> shrinking (fun s => rmatch r s k).
Proof.
  induction r as [c| | |r1 IH1 r2 IH2|r1 IH1]; intros k Hk s rest H;
    simpl in H.
  - destruct s as [|x s']; [discriminate|].
    destruct (N.eqb x c); [|discriminate].
    apply Hk in H. simpl. lia.
  - destruct s as [|x s']; [discriminate|].
    apply Hk in H. simpl. lia.
  - destruct s as [|x s']; [discriminate|].
    destruct (is_space x); [|discriminate].
    apply Hk in H. simpl. lia.
  - revert H. apply (IH1 (fun s' => rmatch r2 s' k)). now apply IH2.
  - revert H. apply star_loop_shrinking; assumption.
Qed.

(** A match of a pattern that begins with a literal begins with that
    character. *)
Lemma search_first_char (c : char) (r : regex) (s js : text) :
  search (Cat (Lit c) r) s = Some js -> exists t, js = c :: t.
Proof.
  induction s as [|x s IH]; simpl; [discriminate|].
  destruct (N.eqb x c) eqn:Ex.
  - destruct (rmatch r s Some) as [rest|] eqn:E.
    + intros H. injection H as <-.
      apply (rmatch_shrinking r Some shrinking_Some) in E.
      apply N.eqb_eq in Ex. subst x. unfold matched.
      cbn [length]. destruct (S (length s) - length rest)%nat eqn:D; [lia|].
      simpl. eauto.
    + exact IH.
  - exact IH.
Qed.

End RegexFacts.

(** ** The JSON decoder *)

Section JsonFacts.
Import Py Json.

#[local] Arguments N.eqb : simpl never.
#[local] Arguments N.leb : simpl never.
#[local] Arguments ch : simpl never.

Lemma skip_ws_length (s : text) : (length (skip_ws s) <= length s)%nat.
Proof.
  induction s as [|c s IH]; simpl; [lia|].
  destruct (is_ws c); simpl; lia.
Qed.

Lemma cons_fst_inv {A B} (a : A) (p : option (list A * B)) l r :
  cons_fst a p = Some (l, r) -> exists l', p = Some (l', r).
Proof.
  destruct p as [[l' r']|]; simpl; [|discriminate].
  intros H. injection H as _ ->. eauto.
Qed.

(** A scanned string ends at a closing quote: the rest is shorter. *)
Lemma scanstring_length_aux (n : nat) :
  forall s t r, (length s <= n)%nat ->
    scanstring s = Some (t, r) -> (length r < length s)%nat.
Proof.
  induction n as [|n IH]; intros s t r Hn H.
  { destruct s; [discriminate H|simpl in Hn; lia]. }
  destruct s as [|c s1]; [discriminate H|].
  cbn [scanstring] in H. simpl in Hn.
  destruct (N.eqb c dquote).
  { injection H as _ <-. simpl. lia. }
  destruct (N.eqb c (ch "\")).
  - destruct s1 as [|e s2]; [discriminate H|].
    destruct (N.eqb e (ch "u")).
    + destruct s2 as [|a [|b [|c' [|d s3]]]]; try discriminate H.
      destruct (hex4 a b c' d) as [u|]; [|discriminate H].
      simpl in Hn.
      assert (Hs3 : forall t' r', cons_fst u (scanstring s3) = Some (t', r') ->
                (length r' < length s3)%nat).
      { intros t' r' H'. apply cons_fst_inv in H' as [l' H'].
        apply IH in H'; [exact H'|lia]. }
      destruct s3 as [|x [|y [|a2 [|b2 [|c2 [|d2 s4]]]]]];
        try (apply Hs3 in H; simpl in *; lia).
      destruct (is_high_surrogate u && N.eqb x (ch "\") && N.eqb y (ch "u"));
        [|apply Hs3 in H; simpl in *; lia].
      destruct (hex4 a2 b2 c2 d2) as [u2|]; [|discriminate H].
      destruct (is_low_surrogate u2); [|apply Hs3 in H; simpl in *; lia].
      apply cons_fst_inv in H as [l' H].
      apply IH in H; simpl in *; lia.
    + destruct (unescape e); [|discriminate H].
      apply cons_fst_inv in H as [l' H].
      apply IH in H; simpl in *; lia.
  - destruct (N.leb c 31); [discriminate H|].
    apply cons_fst_inv in H as [l' H].
    apply IH in H; simpl in *; lia.
Qed.

Lemma scanstring_length (s t r : text) :
  scanstring s = Some (t, r) -> (length r < length s)%nat.
Proof. apply (scanstring_length_aux (length s)). lia. Qed.

Lemma span_digits_length (s d r : text) :
  span_digits s = (d, r) -> (length r <= length s)%nat.
Proof.
  revert d r. induction s as [|c s IH]; intros d r H; simpl in H.
  - injection H as _ <-. simpl. lia.
  - destruct (is_digit c).
    + destruct (span_digits s) as [d' r'] eqn:E.
      injection H as _ <-. specialize (IH d' r' eq_refl). simpl. lia.
    + injection H as _ <-. lia.
Qed.

Lemma int_part_length (s d r : text) :
  int_part s = Some (d, r) -> (length r < length s)%nat.
Proof.
  destruct s as [|c s']; simpl; [discriminate|].
  destruct (N.eqb c (ch "0")).
  - intros H. injection H as _ <-. lia.
  - destruct (is_digit c); [|discriminate].
    destruct (span_digits s') as [d' r'] eqn:E.
    intros H. injection H as _ <-.
    apply span_digits_length in E. lia.
Qed.

Lemma frac_part_length (s : text) (f : option text) (r : text) :
  frac_part s = (f, r) -> (length r <= length s)%nat.
Proof.
  unfold frac_part.
  destruct s as [|dot [|d1 s']]; try (intros H; injection H as _ <-; lia).
  destruct (N.eqb dot (ch ".") && is_digit d1).
  - cbn [tl]. destruct (span_digits (d1 :: s')) as [d r'] eqn:E.
    intros H. injection H as _ <-.
    apply span_digits_length in E. simpl in *. lia.
  - intros H. injection H as _ <-. lia.
Qed.

Lemma exp_part_length (s : text) (x : option (bool * text)) (r : text) :
  exp_part s = (x, r) -> (length r <= length s)%nat.
Proof.
  unfold exp_part.
  destruct s as [|e s']; [intros H; injection H as _ <-; lia|].
  destruct (N.eqb e (ch "e") || N.eqb e (ch "E"));
    [|intros H; injection H as _ <-; lia].
  assert (Hsign : forall eneg s'',
             (match s' with
              | sg :: t =>
                  if N.eqb sg (ch "-") then (true, t)
                  else if N.eqb sg (ch "+") then (false, t)
                  else (false, s')
              | [] => (false, s')
              end) = (eneg, s'') -> (length s'' <= length s')%nat).
  { intros eneg s''. destruct s' as [|sg t].
    - intros H. injection H as _ <-. lia.
    - destruct (N.eqb sg (ch "-")); [intros H; injection H as _ <-; simpl; lia|].
      destruct (N.eqb sg (ch "+")); intros H; injection H as _ <-; simpl; lia. }
  destruct (match s' with [] => _ | _ :: _ => _ end) as [eneg s''].
  specialize (Hsign eneg s'' eq_refl).
  destruct (span_digits s'') as [ed r'] eqn:E.
  apply span_digits_length in E.
  destruct ed; intros H; injection H as _ <-; simpl; lia.
Qed.

Lemma match_number_length (s : text) (v : pyval) (r : text) :
  match_number s = Some (v, r) -> (length r < length s)%nat.
Proof.
  unfold match_number.
  destruct (match s with [] => _ | _ :: _ => _ end) as [neg s1] eqn:E1.
  assert (H1 : (length s1 <= length s)%nat).
  { destruct s as [|c s'].
    - injection E1 as _ <-. lia.
    - destruct (N.eqb c (ch "-")); injection E1 as _ <-; simpl; lia. }
  destruct (int_part s1) as [[idig s2]|] eqn:E2; [|discriminate].
  apply int_part_length in E2.
  destruct (frac_part s2) as [frac s3] eqn:E3.
  apply frac_part_length in E3.
  destruct (exp_part s3) as [exp s4] eqn:E4.
  apply exp_part_length in E4.
  destruct frac, exp; intros H; injection H as _ <-; lia.
Qed.

Lemma starts_with_length (p s : text) :
  starts_with p s = true -> (length p <= length s)%nat.
Proof.
  revert s. induction p as [|x p IH]; intros [|y s]; simpl;
    try discriminate; try lia.
  intros H. apply andb_true_iff in H as [_ H]. apply IH in H. lia.
Qed.

Lemma scan_atom_length (s : text) (v : pyval) (r : text) :
  scan_atom s = Scanned v r -> (length r < length s)%nat.
Proof.
  unfold scan_atom.
  repeat match goal with
         | |- (if starts_with ?p s then _ else _) = _ -> _ =>
             let E := fresh "E" in
             destruct (starts_with p s) eqn:E;
             [apply starts_with_length in E; intros H;
              match type of H with
              | Scanned _ (skipn ?n s) = _ =>
                  replace r with (skipn n s) by congruence
              end;
              rewrite length_skipn; simpl in E; lia|]
         end.
  destruct (match_number s) as [[v' r']|] eqn:Em; [|discriminate].
  intros H. injection H as _ <-. now apply match_number_length in Em.
Qed.

Lemma scan_atom_not_exhausted (s : text) : scan_atom s <> Exhausted.
Proof.
  unfold scan_atom.
  repeat match goal with
         | |- (if ?b then _ else _) <> _ => destruct b; [discriminate|]
         end.
  destruct (match_number s) as [[v r]|]; discriminate.
Qed.

(** Every scanner consumes input: what is left is shorter than what it
    was given. *)
Lemma scan_shorter (fuel : nat) :
  (forall s v r, scan_once fuel s = Scanned v r ->
                 (length r < length s)%nat) /\
  (forall s acc v r, parse_array fuel s acc = Scanned v r ->
                     (length r < length s)%nat) /\
  (forall s acc v r, parse_object fuel s acc = Scanned v r ->
                     (length r < length s)%nat).
Proof.
  induction fuel as [|fuel [IHs [IHa IHo]]].
  { repeat split; intros; discriminate. }
  split; [|split].
  - intros s v r H. scan_step H.
    destruct s as [|c s']; [discriminate|].
    destruct (N.eqb c dquote).
    { destruct (scanstring s') as [[t r0]|] eqn:E; [|discriminate].
      injection H as _ <-. apply scanstring_length in E. simpl. lia. }
    destruct (N.eqb c (ch "{")).
    { pose proof (skip_ws_length s') as Hw.
      destruct (skip_ws s') as [|c1 r1]; [discriminate|].
      destruct (N.eqb c1 (ch "}")).
      - injection H as _ <-. simpl in *. lia.
      - apply IHo in H. simpl in *. lia. }
    destruct (N.eqb c (ch "[")).
    { pose proof (skip_ws_length s') as Hw.
      destruct (skip_ws s') as [|c1 r1]; [discriminate|].
      destruct (N.eqb c1 (ch "]")).
      - injection H as _ <-. simpl in *. lia.
      - apply IHa in H. simpl in *. lia. }
    now apply scan_atom_length in H.
  - intros s acc v r H. scan_step H.
    destruct (scan_once fuel s) as [v0 r0| |] eqn:E; try discriminate.
    apply IHs in E.
    pose proof (skip_ws_length r0) as Hw.
    destruct (skip_ws r0) as [|c r1]; [discriminate|].
    destruct (N.eqb c (ch "]")).
    { injection H as _ <-. simpl in *. lia. }
    destruct (N.eqb c (ch ",")); [|discriminate].
    apply IHa in H. pose proof (skip_ws_length r1). simpl in *. lia.
  - intros s acc v r H. scan_step H.
    destruct s as [|q s1]; [discriminate|].
    destruct (N.eqb q dquote); [|discriminate].
    destruct (scanstring s1) as [[key r0]|] eqn:Ek; [|discriminate].
    apply scanstring_length in Ek.
    pose proof (skip_ws_length r0) as Hw0.
    destruct (skip_ws r0) as [|colon r1]; [discriminate|].
    destruct (N.eqb colon (ch ":")); [|discriminate].
    pose proof (skip_ws_length r1) as Hw1.
    destruct (scan_once fuel (skip_ws r1)) as [v0 r2| |] eqn:E;
      try discriminate.
    apply IHs in E.
    pose proof (skip_ws_length r2) as Hw2.
    destruct (skip_ws r2) as [|c r3]; [discriminate|].
    destruct (N.eqb c (ch "}")).
    { injection H as _ <-. simpl in *. lia. }
    destruct (N.eqb c (ch ",")); [|discriminate].
    apply IHo in H. pose proof (skip_ws_length r3). simpl in *. lia.
Qed.

(** The budget [loads] hands out is enough: with twice the length of the
    input (and a little), no scanner runs out. *)
Lemma scan_budget (fuel : nat) :
  (forall s, (2 * length s + 1 <= fuel)%nat ->
             scan_once fuel s <> Exhausted) /\
  (forall s acc, (2 * length s + 2 <= fuel)%nat ->
                 parse_array fuel s acc <> Exhausted) /\
  (forall s acc, (2 * length s + 2 <= fuel)%nat ->
                 parse_object fuel s acc <> Exhausted).
Proof.
  induction fuel as [|fuel [IHs [IHa IHo]]].
  { repeat split; intros; lia. }
  destruct (scan_shorter fuel) as [Ss _].
  split; [|split].
  - intros s Hf. cbn [scan_once].
    destruct s as [|c s']; [discriminate|].
    destruct (N.eqb c dquote).
    { destruct (scanstring s') as [[t r0]|]; discriminate. }
    destruct (N.eqb c (ch "{")).
    { pose proof (skip_ws_length s') as Hw.
      destruct (skip_ws s') as [|c1 r1]; [discriminate|].
      destruct (N.eqb c1 (ch "}")); [discriminate|].
      apply IHo. simpl in *. lia. }
    destruct (N.eqb c (ch "[")).
    { pose proof (skip_ws_length s') as Hw.
      destruct (skip_ws s') as [|c1 r1]; [discriminate|].
      destruct (N.eqb c1 (ch "]")); [discriminate|].
      apply IHa. simpl in *. lia. }
    apply scan_atom_not_exhausted.
  - intros s acc Hf. cbn [parse_array].
    destruct (scan_once fuel s) as [v0 r0| |] eqn:E; try discriminate.
    + apply Ss in E.
      pose proof (skip_ws_length r0) as Hw.
      destruct (skip_ws r0) as [|c r1]; [discriminate|].
      destruct (N.eqb c (ch "]")); [discriminate|].
      destruct (N.eqb c (ch ",")); [|discriminate].
      apply IHa. pose proof (skip_ws_length r1). simpl in *. lia.
    + exfalso. revert E. apply IHs. lia.
  - intros s acc Hf. cbn [parse_object].
    destruct s as [|q s1]; [discriminate|].
    destruct (N.eqb q dquote); [|discriminate].
    destruct (scanstring s1) as [[key r0]|] eqn:Ek; [|discriminate].
    apply scanstring_length in Ek.
    pose proof (skip_ws_length r0) as Hw0.
    destruct (skip_ws r0) as [|colon r1]; [discriminate|].
    destruct (N.eqb colon (ch ":")); [|discriminate].
    pose proof (skip_ws_length r1) as Hw1.
    destruct (scan_once fuel (skip_ws r1)) as [v0 r2| |] eqn:E;
      try discriminate.
    + apply Ss in E.
      pose proof (skip_ws_length r2) as Hw2.
      destruct (skip_ws r2) as [|c r3]; [discriminate|].
      destruct (N.eqb c (ch "}")); [discriminate|].
      destruct (N.eqb c (ch ",")); [|discriminate].
      apply IHo. pose proof (skip_ws_length r3). simpl in *. lia.
    + exfalso. revert E. apply IHs. simpl in *. lia.
Qed.

Lemma scan_once_budget (s : text) :
  scan_once (2 * length s + 2) s <> Exhausted.
Proof. apply (scan_budget (2 * length s + 2)). lia. Qed.

(** [json.loads] returns a value or raises [JSONDecodeError]; the budget
    of the scanner plays no part in its result. *)
Lemma loads_raises_decode_error (s : text) (e : exn) :
  loads s = inl e -> e = JSONDecodeError.
Proof.
  unfold loads, raise, ret.
  destruct (starts_with _ s); [congruence|].
  pose proof (scan_once_budget (skip_ws s)) as Hb.
  destruct (scan_once _ (skip_ws s)) as [v rest| |]; try congruence.
  destruct (skip_ws rest); congruence.
Qed.

(** The array loop returns a list. *)
Lemma parse_array_list (fuel : nat) :
  forall s acc v r, parse_array fuel s acc = Scanned v r ->
                    exists l, v = PyList l.
Proof.
  induction fuel as [|fuel IH]; intros s acc v r H; [discriminate|].
  scan_step H.
  destruct (scan_once fuel s) as [v0 r0| |]; try discriminate.
  destruct (skip_ws r0) as [|c r1]; [discriminate|].
  destruct (N.eqb c (ch "]")).
  { injection H as <- _. eauto. }
  destruct (N.eqb c (ch ",")); [|discriminate].
  now apply IH in H.
Qed.

(** A document that starts with a bracket decodes to a list. *)
Lemma loads_bracket_list (t : text) (v : pyval) :
  loads (ch "[" :: t) = inr v -> exists l, v = PyList l.
Proof.
  unfold loads, raise, ret.
  change (starts_with [65279%N] (ch "[" :: t)) with false. cbv iota.
  change (skip_ws (ch "[" :: t)) with (ch "[" :: t).
  destruct (scan_once _ _) as [v0 rest| |] eqn:E; try discriminate.
  destruct (skip_ws rest); [|discriminate].
  intros H. injection H as <-.
  replace (2 * length (ch "[" :: t) + 2)%nat
    with (S (2 * length (ch "[" :: t) + 1))%nat in E by lia.
  scan_step E.
  change (N.eqb (ch "[") dquote) with false in E.
  change (N.eqb (ch "[") (ch "{")) with false in E.
  change (N.eqb (ch "[") (ch "[")) with true in E.
  cbv iota in E.
  destruct (skip_ws t) as [|c1 r1]; [discriminate|].
  destruct (N.eqb c1 (ch "]")).
  - injection E as <- _. eauto.
  - now apply parse_array_list in E.
Qed.

End JsonFacts.

(** ** The question provider *)

Section Provider.
Import Py LLMService.

#[local] Arguments str : simpl never.

Lemma dict_has_get (d : dict) (k : text) :
  dict_has d k = true -> exists v, dict_get d k = Some v.
Proof.
  unfold dict_has. destruct (dict_get d k) as [v|]; [eauto|discriminate].
Qed.

Lemma existsb_py_eqb (x : pyval) (l : list pyval) :
  existsb (fun e => py_eqb e x) l = true ->
  exists o, In o l /\ py_eqb o x = true.
Proof. intros H. apply existsb_exists in H. exact H. Qed.

(** Only a dictionary with the four fields, four options and a correct
    answer among them passes the check; every other value fails it or makes
    it raise. *)
Lemma accepted_admitted (q : pyval) :
  accepted q = true -> admitted_record q.
Proof.
  unfold accepted, check_question, required_fields, all_fields_in.
  destruct q as [| | | |s|l|d];
    try (cbn [py_contains bind raise]; discriminate).
  - cbn [py_contains bind ret raise py_getitem].
    repeat match goal with
           | |- context [if ?b then _ else _] => destruct b
           end; discriminate.
  - cbn [py_contains bind ret raise py_getitem].
    repeat match goal with
           | |- context [if ?b then _ else _] => destruct b
           end; discriminate.
  - cbn [py_contains bind ret raise].
    destruct (dict_has d (str "question")) eqn:Hq; [|discriminate].
    destruct (dict_has d (str "options")) eqn:Ho; [|discriminate].
    destruct (dict_has d (str "correct_answer")) eqn:Hc; [|discriminate].
    destruct (dict_has d (str "explanation")) eqn:He; [|discriminate].
    apply dict_has_get in Hq as [question Hq].
    apply dict_has_get in Ho as [options Ho].
    apply dict_has_get in Hc as [correct_answer Hc].
    apply dict_has_get in He as [explanation He].
    cbn [py_getitem]. rewrite Ho. cbn [bind ret].
    destruct options as [| | | | |opts|]; try discriminate.
    destruct (Nat.eqb (length opts) 4) eqn:Hlen; [|discriminate].
    rewrite Hc. cbn [bind ret py_contains].
    destruct (existsb _ opts) eqn:Hin; [|discriminate].
    intros _. exists d, question, opts, correct_answer, explanation.
    repeat split; try assumption.
    + now apply Nat.eqb_eq.
    + now apply existsb_py_eqb.
Qed.

Lemma validate_questions_from (l acc : list pyval) :
  fold_left
    (fun validated_questions q =>
       match check_question q with
       | inr true => validated_questions ++ [q]
       | _ => validated_questions
       end) l acc = acc ++ filter accepted l.
Proof.
  revert acc. induction l as [|q l IH]; intros acc; simpl.
  - now rewrite app_nil_r.
  - rewrite IH. unfold accepted.
    destruct (check_question q) as [e|[|]]; simpl;
      rewrite <- ?app_assoc; reflexivity.
Qed.

(** The validation loop keeps, in order, the questions that pass. *)
Lemma validate_questions_filter (l : list pyval) :
  validate_questions l = filter accepted l.
Proof. apply validate_questions_from. Qed.

(** For a count that is not negative, trimming keeps the first
    [num_questions] questions. *)
Lemma trim_questions_firstn (l : list pyval) (n : Z) :
  0 <= n -> trim_questions l n = firstn (Z.to_nat n) l.
Proof.
  intros Hn. unfold trim_questions.
  destruct (Z.of_nat (length l) =? n) eqn:E; cbn [negb].
  - apply Z.eqb_eq in E. rewrite firstn_all2; [reflexivity|lia].
  - destruct (Z.of_nat (length l) >? n) eqn:G.
    + now apply slice_to_firstn.
    + rewrite Z.gtb_ltb in G. apply Z.ltb_ge in G.
      rewrite firstn_all2; [reflexivity|lia].
Qed.

Lemma generate_on_text (self : LLMService) (topic : text) (n : Z)
  (raw : text) :
  generate_content self (build_prompt topic n) = inr raw ->
  generate_quiz_questions self topic n = inr (questions_of_text raw n).
Proof.
  intros H. unfold generate_quiz_questions, questions_of_text.
  cbv zeta. rewrite H. unfold parse_response, bind, ret.
  destruct (Re.search json_array_re raw) as [js|]; [|reflexivity].
  destruct (Json.loads _) as [e|v]; [reflexivity|].
  destruct v; reflexivity.
Qed.

Lemma questions_of_text_admitted (raw : text) (n : Z) :
  Forall admitted_record (questions_of_text raw n).
Proof.
  unfold questions_of_text.
  destruct (Re.search json_array_re raw) as [js|]; [|constructor].
  destruct (Json.loads _) as [e|v]; [constructor|].
  destruct v; try constructor.
  rewrite validate_questions_filter.
  apply Forall_forall. intros q Hq. apply filter_In in Hq as [_ Hq].
  now apply accepted_admitted.
Qed.

Lemma questions_of_text_length (raw : text) (n : Z) :
  0 <= n -> Z.of_nat (length (questions_of_text raw n)) <= n.
Proof.
  intros Hn. unfold questions_of_text.
  destruct (Re.search json_array_re raw) as [js|]; [|simpl; lia].
  destruct (Json.loads _) as [e|v]; [simpl; lia|].
  destruct v; try (simpl; lia).
  rewrite validate_questions_filter, trim_questions_firstn by exact Hn.
  pose proof (filter_length_le accepted (firstn (Z.to_nat n) l)) as Hf.
  pose proof (firstn_le_length (Z.to_nat n) l) as Hl.
  rewrite length_firstn in Hf. lia.
Qed.

(** The text handed to [json.loads] starts with a bracket, so what it
    decodes to is a list: the last branch of [parse_response] is never
    taken. *)
Lemma parsed_response_is_list (raw js : text) (v : pyval) :
  Re.search json_array_re raw = Some js ->
  Json.loads (Re.sub trailing_comma_re (str "]") js) = inr v ->
  exists l, v = PyList l.
Proof.
  intros Hs Hl. apply search_first_char in Hs as [t ->].
  change (Re.sub trailing_comma_re (str "]") (ch "[" :: t))
    with (ch "[" :: Re.sub_from trailing_comma_re (str "]") t 0) in Hl.
  now apply loads_bracket_list in Hl.
Qed.

Lemma generate_output_admitted (self : LLMService) (topic : text)
  (num_questions : Z) (qs : list pyval) :
  generate_quiz_questions self topic num_questions = inr qs ->
  Forall admitted_record qs.
Proof.
  destruct (generate_content self (build_prompt topic num_questions))
    as [e|raw] eqn:Hm.
  - unfold generate_quiz_questions. cbv zeta. rewrite Hm.
    destruct e; unfold ret, raise; intros H; try discriminate;
      injection H as <-; constructor.
  - rewrite (generate_on_text self topic num_questions raw Hm).
    intros H. injection H as <-. apply questions_of_text_admitted.
Qed.

(** What the provider returns can be loaded into a session as it is:
    every record has the four fields [submit_answer] reads. *)
Lemma generate_output_loadable (self : LLMService) (topic : text)
  (num_questions : Z) (qs : list pyval) :
  generate_quiz_questions self topic num_questions = inr qs ->
  QuizLogic.well_formed_call (QuizLogic.Load qs).
Proof.
  intros H. apply generate_output_admitted in H. simpl.
  eapply Forall_impl; [|exact H].
  intros q (d & question & options & correct & explanation & Hq & H1 & H2
            & H3 & H4 & _).
  exists d, question, (PyList options), correct, explanation. auto.
Qed.

(** C1, as the code has it.  Every record that [generate_quiz_questions]
    returns is a dictionary with the four fields whose options are a list
    of exactly four entries and whose correct answer compares equal to at
    least one of them.  (Nothing is checked about the question text, about
    the options being non-empty strings or about their being pairwise
    different.) *)
Theorem generated_records_admitted (self : LLMService) (topic : text)
  (num_questions : Z) (qs : list pyval) :
  generate_quiz_questions self topic num_questions = inr qs ->
  Forall admitted_record qs.
Proof. exact (generate_output_admitted self topic num_questions qs). Qed.

Lemma generated_records_admitted_witness :
  Forall admitted_record degenerate_records.
Proof.
  apply (generated_records_admitted (fixed_model degenerate_response)
           (str "topic") 5 degenerate_records).
  vm_compute. reflexivity.
Defined.

(** C1, as the specification states it, fails: the provider returns
    records that are not valid QuestionRecords. *)
Lemma generate_returns_invalid_record :
  generate_quiz_questions (fixed_model degenerate_response) (str "topic") 5
    = inr degenerate_records /\
  forallb valid_question_record degenerate_records = false /\
  existsb valid_question_record degenerate_records = false.
Proof. repeat split; vm_compute; reflexivity. Qed.

(** When the model call itself raises, the handlers return the empty
    list, except for a [JSONDecodeError]: its handler reads the response
    text, which was never bound. *)
Lemma generate_when_model_raises (self : LLMService) (topic : text)
  (num_questions : Z) (e : exn) :
  generate_content self (build_prompt topic num_questions) = inl e ->
  generate_quiz_questions self topic num_questions =
  match e with
  | JSONDecodeError => inl UnboundLocalError
  | _ => inr []
  end.
Proof.
  intros H. unfold generate_quiz_questions. cbv zeta. rewrite H.
  destruct e; reflexivity.
Qed.

(** C5.  For a requested number of at least one and any response text,
    [generate_quiz_questions] returns a list that is not longer than
    requested: it is made of the records, among the first [num_questions]
    parsed ones, that pass validation, in their order. *)
Theorem generate_at_most_requested (self : LLMService) (topic : text)
  (num_questions : Z) (raw : text) :
  1 <= num_questions ->
  generate_content self (build_prompt topic num_questions) = inr raw ->
  exists qs,
    generate_quiz_questions self topic num_questions = inr qs /\
    0 <= Z.of_nat (length qs) <= num_questions /\
    (forall js parsed,
        Re.search json_array_re raw = Some js ->
        Json.loads (Re.sub trailing_comma_re (str "]") js)
          = inr (PyList parsed) ->
        qs = filter accepted (firstn (Z.to_nat num_questions) parsed) /\
        (num_questions < Z.of_nat (length parsed) ->
         length (firstn (Z.to_nat num_questions) parsed)
           = Z.to_nat num_questions) /\
        (Z.of_nat (length parsed) <= num_questions ->
         qs = filter accepted parsed)).
Proof.
  intros Hn Hm. exists (questions_of_text raw num_questions).
  split; [now apply generate_on_text|].
  split; [split; [lia|apply questions_of_text_length; lia]|].
  intros js parsed Hs Hl. unfold questions_of_text. rewrite Hs, Hl.
  rewrite validate_questions_filter, trim_questions_firstn by lia.
  split; [reflexivity|split].
  - intros Hlt. rewrite length_firstn. lia.
  - intros Hle. rewrite firstn_all2; [reflexivity|lia].
Qed.

Lemma generate_at_most_requested_witness :
  exists qs,
    generate_quiz_questions (fixed_model three_records_response)
      (str "topic") 2 = inr qs /\
    0 <= Z.of_nat (length qs) <= 2 /\
    (forall js parsed,
        Re.search json_array_re three_records_response = Some js ->
        Json.loads (Re.sub trailing_comma_re (str "]") js)
          = inr (PyList parsed) ->
        qs = filter accepted (firstn (Z.to_nat 2) parsed) /\
        (2 < Z.of_nat (length parsed) ->
         length (firstn (Z.to_nat 2) parsed) = Z.to_nat 2) /\
        (Z.of_nat (length parsed) <= 2 -> qs = filter accepted parsed)).
Proof.
  apply (generate_at_most_requested (fixed_model three_records_response)
           (str "topic") 2 three_records_response).
  - lia.
  - reflexivity.
Defined.

(** C6.  Once the model has answered with a text, whatever the text,
    [generate_quiz_questions] returns: the empty list when the text has no
    match of the array pattern, and the empty list when the matched text
    does not decode as JSON.  The constructor is where a missing key
    raises, and it raises nothing else. *)
Theorem generate_returns_on_any_text :
  (forall (self : LLMService) (topic : text) (num_questions : Z) (raw : text),
      generate_content self (build_prompt topic num_questions) = inr raw ->
      (exists qs, generate_quiz_questions self topic num_questions = inr qs) /\
      (Re.search json_array_re raw = None ->
       generate_quiz_questions self topic num_questions = inr []) /\
      (forall js e,
          Re.search json_array_re raw = Some js ->
          Json.loads (Re.sub trailing_comma_re (str "]") js) = inl e ->
          generate_quiz_questions self topic num_questions = inr [])) /\
  (forall backend, init None None backend = inl ValueError) /\
  (forall secret env backend e,
      init secret env backend = inl e ->
      e = ValueError /\ (py_or secret env = None \/ py_or secret env = Some [])).
Proof.
  split; [|split].
  - intros self topic n raw Hm.
    rewrite (generate_on_text self topic n raw Hm).
    split; [eauto|split].
    + intros Hs. unfold questions_of_text. now rewrite Hs.
    + intros js e Hs Hl. unfold questions_of_text. now rewrite Hs, Hl.
  - reflexivity.
  - intros secret env backend e. unfold init.
    destruct (py_or secret env) as [[|c k]|]; unfold raise, ret;
      intros H; try discriminate; injection H as <-; auto.
Qed.

Lemma generate_returns_on_any_text_witness :
  (exists qs,
      generate_quiz_questions (fixed_model trailing_comma_response)
        (str "topic") 5 = inr qs) /\
  (Re.search json_array_re trailing_comma_response = None ->
   generate_quiz_questions (fixed_model trailing_comma_response)
     (str "topic") 5 = inr []) /\
  (forall js e,
      Re.search json_array_re trailing_comma_response = Some js ->
      Json.loads (Re.sub trailing_comma_re (str "]") js) = inl e ->
      generate_quiz_questions (fixed_model trailing_comma_response)
        (str "topic") 5 = inr []).
Proof.
  apply (proj1 generate_returns_on_any_text
           (fixed_model trailing_comma_response) (str "topic") 5
           trailing_comma_response).
  reflexivity.
Defined.

(** C8.  The response of the specification's example, an array with a
    comma before its closing bracket, has no match of the array pattern
    (the pattern wants a closing brace, then white space, then the
    bracket), so the provider returns the empty list and the repair of
    trailing commas is never reached; applied to that text, the repair and
    the decoder would have given the one record. *)
Theorem trailing_comma_response_yields_nothing :
  Re.search json_array_re trailing_comma_response = None /\
  (forall topic num_questions,
      generate_quiz_questions (fixed_model trailing_comma_response) topic
        num_questions = inr []) /\
  Json.loads (Re.sub trailing_comma_re (str "]") trailing_comma_response)
    = inr (PyList [question_dict "Q" ["A"; "B"; "C"; "D"]%string "A" "E"]) /\
  validate_questions [question_dict "Q" ["A"; "B"; "C"; "D"]%string "A" "E"]
    = [question_dict "Q" ["A"; "B"; "C"; "D"]%string "A" "E"].
Proof.
  assert (Hs : Re.search json_array_re trailing_comma_response = None)
    by (vm_compute; reflexivity).
  split; [exact Hs|split; [|split]].
  - intros topic n.
    rewrite (generate_on_text (fixed_model trailing_comma_response) topic n
               trailing_comma_response eq_refl).
    unfold questions_of_text. now rewrite Hs.
  - vm_compute. reflexivity.
  - vm_compute. reflexivity.
Qed.

End Provider.

(** ** The tabular export *)

Section CsvExport.
Import Py FileExporter.

#[local] Arguments str : simpl never.

Lemma all_str_map (l : list text) : all_str (map PyStr l) = inr l.
Proof.
  induction l as [|x l IH]; simpl; [reflexivity|].
  now rewrite IH.
Qed.

Lemma frame_labels_entries (l : list answer) :
  fold_left (fun cols d => fold_left add_label (map fst d) cols)
    (map entry_of l) entry_labels = entry_labels.
Proof.
  induction l as [|a l IH]; [reflexivity|].
  cbn [map fold_left].
  change (fold_left add_label (map fst (entry_of a)) entry_labels)
    with entry_labels.
  exact IH.
Qed.

Lemma apply_column_entries (l : list answer) :
  apply_column
    (fun x => bind (str_join (str "; ") x) (fun s => ret (PyStr s)))
    1 (map (frame_row entry_labels) (map entry_of l))
  = inr (map row_of l).
Proof.
  induction l as [|a l IH]; [reflexivity|].
  cbn [map apply_column].
  change (frame_row entry_labels (entry_of a))
    with [a_question a; PyList (map PyStr (a_options a)); PyStr (a_chosen a);
          a_correct a; PyBool (a_is_correct a); a_explanation a].
  cbn [nth str_join]. rewrite all_str_map. cbn [bind ret].
  rewrite IH. reflexivity.
Qed.

Lemma encodable_app (s t : text) :
  encodable (s ++ t) = encodable s && encodable t.
Proof. unfold encodable. now rewrite existsb_app, negb_orb. Qed.

Lemma encodable_join (sep : text) (parts : list text) :
  encodable sep = true ->
  Forall (fun o => encodable o = true) parts ->
  encodable (join sep parts) = true.
Proof.
  intros Hsep. induction 1 as [|p rest Hp Hrest IH]; [reflexivity|].
  destruct rest as [|q rest]; [exact Hp|].
  change (join sep (p :: q :: rest)) with (p ++ sep ++ join sep (q :: rest)).
  now rewrite !encodable_app, Hp, Hsep, IH.
Qed.

Lemma row_of_encodable (a : answer) :
  plain_answer a -> forallb cell_encodable (row_of a) = true.
Proof.
  intros ((q & Hq & Eq) & Ho & Hc & (ca & Hca & Eca) & (ex & Hex & Eex)).
  unfold row_of. rewrite Hq, Hca, Hex. cbn [forallb cell_encodable].
  rewrite Eq, Hc, Eca, Eex, (encodable_join (str "; ") _ eq_refl Ho).
  reflexivity.
Qed.

Lemma to_csv_plain (l : list answer) :
  Forall plain_answer l ->
  to_csv {| columns := entry_labels; rows := map row_of l |} =
  inr {| columns := entry_labels; rows := map row_of l |}.
Proof.
  intros H. unfold to_csv. cbn [columns rows].
  change (forallb encodable entry_labels) with true. cbn [andb].
  assert (E : forallb (forallb cell_encodable) (map row_of l) = true).
  { induction H as [|a l Ha Hl IH]; [reflexivity|].
    cbn [map forallb]. now rewrite (row_of_encodable a Ha), IH. }
  now rewrite E.
Qed.

(** On a log that is not empty and whose entries hold strings that can be
    encoded, the table has the six columns of an entry and one row per
    entry, in the order of the log. *)
Lemma export_to_csv_rows (a : answer) (l : list answer) :
  Forall plain_answer (a :: l) ->
  export_to_csv (map entry_of (a :: l)) =
  inr {| columns := entry_labels; rows := map row_of (a :: l) |}.
Proof.
  intros Hplain.
  unfold export_to_csv, data_frame, frame_labels.
  cbn [map fold_left columns rows].
  change (fold_left add_label (map fst (entry_of a)) []) with entry_labels.
  rewrite frame_labels_entries.
  change (column_index entry_labels (str "options")) with (Some 1%nat).
  cbv iota.
  change (frame_row entry_labels (entry_of a) ::
          map (frame_row entry_labels) (map entry_of l))
    with (map (frame_row entry_labels) (map entry_of (a :: l))).
  rewrite apply_column_entries. cbn [bind].
  exact (to_csv_plain (a :: l) Hplain).
Qed.

(** C9.  On the empty answer log, [export_to_csv] produces no table: the
    frame built from no record has no column, and taking its [options]
    column raises [KeyError]. *)
Theorem export_to_csv_empty_log :
  columns (data_frame []) = [] /\
  export_to_csv [] = inl KeyError.
Proof. split; reflexivity. Qed.

End CsvExport.

(** ** Runs of the quiz session *)

Section SessionRuns.
Import Py QuizLogic.

#[local] Arguments str : simpl never.

Lemma firstn_succ_nth {A} (l : list A) (n : nat) (d : A) :
  (n < length l)%nat -> firstn (S n) l = firstn n l ++ [nth n l d].
Proof.
  revert n. induction l as [|x l IH]; intros n Hn; simpl in Hn; [lia|].
  destruct n as [|n]; [reflexivity|].
  cbn [firstn nth app]. rewrite <- IH by lia. reflexivity.
Qed.

Lemma nth_error_nth_default {A} (l : list A) (n : nat) (d : A) :
  (n < length l)%nat -> nth_error l n = Some (nth n l d).
Proof.
  revert n. induction l as [|x l IH]; intros n Hn; simpl in Hn; [lia|].
  destruct n as [|n]; [reflexivity|]. simpl. apply IH. lia.
Qed.

(** On a session whose records have the four fields, [submit_answer]
    either is the no-op of a finished or misplaced index, or is the step
    described by [submit_answer_step]; it does not raise. *)
Lemma submit_answer_well_formed (self : QuizManager) (chosen : text) :
  Forall has_fields (questions self) ->
  submit_answer chosen self = (self, inr (PyNone, PyNone)) /\
    ~ (0 <= current_question_index self
         < Z.of_nat (length (questions self)))
  \/
  (0 <= current_question_index self < Z.of_nat (length (questions self)) /\
   exists d question options correct_answer explanation,
     nth (Z.to_nat (current_question_index self)) (questions self) PyNone
       = PyDict d /\
     dict_get d (str "question") = Some question /\
     dict_get d (str "options") = Some options /\
     dict_get d (str "correct_answer") = Some correct_answer /\
     dict_get d (str "explanation") = Some explanation /\
     submit_answer chosen self =
       ({| questions := questions self;
           current_question_index := current_question_index self + 1;
           user_answers :=
             user_answers self ++
             [answer_entry question options chosen correct_answer
                (py_eq (PyStr chosen) correct_answer) explanation];
           score := if py_eq (PyStr chosen) correct_answer
                    then score self + 1 else score self;
           quiz_started := quiz_started self |},
        inr (PyBool (py_eq (PyStr chosen) correct_answer), explanation))).
Proof.
  intros Hwf.
  destruct (Z_lt_le_dec (current_question_index self) 0) as [Hneg|Hpos].
  { left. split; [|lia].
    unfold submit_answer, mbind, read, mret.
    destruct (negb (py_truthy (PyList (questions self)))); [reflexivity|].
    unfold get_current_question.
    replace (0 <=? current_question_index self) with false
      by (symmetry; apply Z.leb_gt; exact Hneg).
    reflexivity. }
  destruct (Z_lt_le_dec (current_question_index self)
              (Z.of_nat (length (questions self)))) as [Hin|Hout].
  - right. split; [lia|].
    assert (Hq : has_fields
                   (nth (Z.to_nat (current_question_index self))
                      (questions self) PyNone)).
    { eapply Forall_forall; [exact Hwf|]. apply nth_In. lia. }
    destruct Hq as (d & qv & ov & cv & ev & Hd & Hqv & Hov & Hcv & Hev).
    exists d, qv, ov, cv, ev. repeat split; try assumption.
    apply (submit_answer_step self chosen d qv ov cv ev
             (conj Hpos Hin) Hd Hqv Hov Hcv Hev).
  - left. split; [|lia].
    apply finished_submit_is_noop. right. exact Hout.
Qed.

(** A series of submissions that fits into the questions left moves the
    index and the log on by its length. *)
Lemma submit_all_progress (choices : list text) :
  forall self,
    Forall has_fields (questions self) ->
    0 <= current_question_index self ->
    current_question_index self + Z.of_nat (length choices)
      <= Z.of_nat (length (questions self)) ->
    questions (submit_all self choices) = questions self /\
    current_question_index (submit_all self choices)
      = current_question_index self + Z.of_nat (length choices) /\
    length (user_answers (submit_all self choices))
      = (length (user_answers self) + length choices)%nat.
Proof.
  unfold submit_all.
  induction choices as [|c choices IH]; intros self Hwf Hlo Hhi.
  - simpl. repeat split; lia.
  - cbn [map fold_left after_call]. cbn [length] in Hhi.
    destruct (submit_answer_well_formed self c Hwf)
      as [[_ Hout]|[Hin (d & qv & ov & cv & ev & _ & _ & _ & _ & _ & Hs)]];
      [exfalso; lia|].
    rewrite Hs. cbn [fst].
    match goal with
    | |- context [fold_left after_call _ ?s1] =>
        destruct (IH s1) as (Hq & Hi & Hl)
    end; cbn [questions current_question_index user_answers];
      try assumption; try lia.
    rewrite Hq, Hi, Hl. cbn [questions current_question_index user_answers].
    rewrite length_app. cbn [length]. repeat split; lia.
Qed.

(** X1.  After [load_questions] of records with the four fields, a
    series of no more submissions than there are questions leaves the index
    and the length of the log at the number of submissions; the quiz is
    finished exactly when every question has been answered, and then there
    is no current question. *)
Theorem quiz_finishes_after_last_answer (self : QuizManager)
  (questions_data : list pyval) (choices : list text) :
  Forall has_fields questions_data ->
  (length choices <= length questions_data)%nat ->
  let s := submit_all (load_questions self questions_data) choices in
  current_question_index s = Z.of_nat (length choices) /\
  length (user_answers s) = length choices /\
  (is_quiz_finished s = true <-> length choices = length questions_data) /\
  (length choices = length questions_data ->
   get_current_question s = PyNone).
Proof.
  intros Hwf Hlen s.
  destruct (submit_all_progress choices (load_questions self questions_data))
    as (Hq & Hi & Hl); cbn [load_questions questions current_question_index];
    try assumption; try lia.
  fold s in Hq, Hi, Hl. cbn [load_questions questions current_question_index
                               user_answers length] in Hq, Hi, Hl.
  assert (Hfin : is_quiz_finished s = true
                 <-> length choices = length questions_data).
  { unfold is_quiz_finished. rewrite Hq, Hi, Z.geb_leb, Z.leb_le. lia. }
  repeat split; try lia; try apply Hfin.
  intros Heq. apply get_current_question_past_end. rewrite Hq, Hi. lia.
Qed.

Lemma quiz_finishes_after_last_answer_witness :
  let q := LLMService.question_dict "Q" ["A"; "B"; "C"; "D"]%string "A" "E" in
  let s := submit_all (load_questions new [q; q]) [str "A"; str "B"] in
  current_question_index s = 2 /\
  length (user_answers s) = 2%nat /\
  (is_quiz_finished s = true <-> 2%nat = 2%nat) /\
  (2%nat = 2%nat -> get_current_question s = PyNone).
Proof.
  intros q.
  apply (quiz_finishes_after_last_answer new [q; q] [str "A"; str "B"]).
  - repeat constructor;
      exists [ (str "question", PyStr (str "Q"));
               (str "options",
                PyList (map (fun o => PyStr (str o))
                          ["A"; "B"; "C"; "D"]%string));
               (str "correct_answer", PyStr (str "A"));
               (str "explanation", PyStr (str "E")) ];
      do 4 eexists; repeat split; reflexivity.
  - simpl. lia.
Defined.

Lemma has_fields_fold (calls : list call) (self : QuizManager) :
  Forall well_formed_call calls ->
  Forall has_fields (questions self) ->
  Forall has_fields (questions (fold_left after_call calls self)).
Proof.
  intros Hc Hq.
  apply (score_counts_log_fold calls
           {| questions := questions self;
              current_question_index := current_question_index self;
              user_answers := [];
              score := 0;
              quiz_started := quiz_started self |}) in Hc.
  - revert Hc. clear Hq.
    assert (Hsame : forall cs a b,
               questions a = questions b ->
               questions (fold_left after_call cs a)
               = questions (fold_left after_call cs b)).
    { induction cs as [|c cs IH]; intros a b Hab; [exact Hab|].
      simpl. apply IH. destruct c as [qd|chosen|]; simpl; try reflexivity.
      destruct (submit_answer_effect chosen a) as [Ha _].
      destruct (submit_answer_effect chosen b) as [Hb _].
      cbv zeta in Ha, Hb. congruence. }
    intros [Hwf _]. erewrite Hsame; [exact Hwf|reflexivity].
  - split; [exact Hq|reflexivity].
Qed.

Lemma log_records_questions_after_call (self : QuizManager) (c : call) :
  well_formed_call c ->
  Forall has_fields (questions self) ->
  log_matches_index self ->
  log_records_questions self ->
  log_records_questions (after_call self c).
Proof.
  intros Hc Hwf [Hlen Hle] Hrec. destruct c as [qd|chosen|].
  - constructor.
  - cbn [after_call].
    destruct (submit_answer_well_formed self chosen Hwf)
      as [[Hs _]|[Hin (d & qv & ov & cv & ev & Hd & Hqv & Hov & Hcv & Hev
                       & Hs)]];
      rewrite Hs; cbn [fst]; [exact Hrec|].
    unfold log_records_questions in *.
    cbn [questions user_answers].
    rewrite length_app. cbn [length].
    replace (length (user_answers self) + 1)%nat
      with (S (length (user_answers self))) by lia.
    rewrite (firstn_succ_nth _ _ PyNone) by lia.
    apply Forall2_app; [exact Hrec|].
    constructor; [|constructor].
    replace (length (user_answers self))
      with (Z.to_nat (current_question_index self)) by lia.
    rewrite Hd. exists d, chosen, cv.
    repeat split; try assumption; try reflexivity;
      cbn [answer_entry]; symmetry; assumption.
  - constructor.
Qed.

Lemma session_invariants_fold (calls : list call) :
  forall self,
    Forall well_formed_call calls ->
    Forall has_fields (questions self) ->
    log_matches_index self ->
    log_records_questions self ->
    log_records_questions (fold_left after_call calls self).
Proof.
  induction calls as [|c calls IH]; intros self Hc Hwf Hidx Hrec;
    [exact Hrec|].
  inversion Hc as [|c' cs Hc1 Hc2]; subst. cbn [fold_left].
  apply IH; try assumption.
  - apply (has_fields_fold [c] self); [constructor; auto|exact Hwf].
  - now apply log_matches_index_after_call.
  - now apply log_records_questions_after_call.
Qed.

Lemma Forall2_nth_error_right {A B} (R : A -> B -> Prop) (l1 : list A)
  (l2 : list B) (i : nat) (b : B) :
  Forall2 R l1 l2 -> nth_error l2 i = Some b ->
  exists a, nth_error l1 i = Some a /\ R a b.
Proof.
  intros H. revert i. induction H as [|x y l1 l2 Hxy H IH]; intros i Hi.
  - destruct i; discriminate.
  - destruct i as [|i]; simpl in *.
    + injection Hi as <-. eauto.
    + now apply IH.
Qed.

Lemma nth_error_firstn_some {A} (l : list A) (n i : nat) (a : A) :
  nth_error (firstn n l) i = Some a -> nth_error l i = Some a.
Proof.
  revert n i. induction l as [|x l IH]; intros n i H.
  - rewrite firstn_nil in H. destruct i; discriminate.
  - destruct n as [|n]; [destruct i; discriminate|].
    destruct i as [|i]; simpl in *; [exact H|]. eapply IH, H.
Qed.

(** X2.  After any sequence of calls in which the loaded records have the
    four fields, the entry at each position of the answer log belongs to
    the question at the same position: it carries that record's question,
    options, correct answer and explanation, and its [is_correct] is the
    outcome of comparing its chosen string with that correct answer. *)
Theorem log_entry_records_its_question (calls : list call) (i : nat)
  (entry : dict) :
  Forall well_formed_call calls ->
  nth_error (user_answers (run calls)) i = Some entry ->
  exists q, nth_error (questions (run calls)) i = Some q /\
            entry_records q entry.
Proof.
  intros Hc Hi.
  assert (Hrec : log_records_questions (run calls)).
  { apply session_invariants_fold; try assumption.
    - constructor.
    - split; simpl; lia.
    - constructor. }
  destruct (Forall2_nth_error_right _ _ _ _ _ Hrec Hi) as [q [Hq HR]].
  exists q. split; [|exact HR]. eapply nth_error_firstn_some, Hq.
Qed.

Lemma log_entry_records_its_question_witness :
  let q := LLMService.question_dict "Q" ["A"; "B"; "C"; "D"]%string "A" "E" in
  let calls := [Load [q; q]; Submit (str "B")] in
  exists q', nth_error (questions (run calls)) 0 = Some q' /\
             entry_records q'
               (answer_entry (PyStr (str "Q"))
                  (PyList (map (fun o => PyStr (str o))
                             ["A"; "B"; "C"; "D"]%string))
                  (str "B") (PyStr (str "A")) false (PyStr (str "E"))).
Proof.
  intros q calls.
  apply (log_entry_records_its_question calls 0).
  - repeat constructor;
      exists [ (str "question", PyStr (str "Q"));
               (str "options",
                PyList (map (fun o => PyStr (str o))
                          ["A"; "B"; "C"; "D"]%string));
               (str "correct_answer", PyStr (str "A"));
               (str "explanation", PyStr (str "E")) ];
      do 4 eexists; repeat split; reflexivity.
  - reflexivity.
Defined.

(** X3.  After any sequence of calls in which the loaded records have the
    four fields, the counts of [get_score_summary] are consistent with the
    log: the correct count is between 0 and the number of answers given,
    which is at most the total, and the incorrect count is at least the
    number of questions not answered yet, hence not negative. *)
Theorem score_summary_bounds (calls : list call) :
  Forall well_formed_call calls ->
  let self := run calls in
  let '(total, correct, incorrect) := get_score_summary self in
  let answered := Z.of_nat (length (user_answers self)) in
  0 <= correct <= answered /\ answered <= total /\
  total - answered <= incorrect <= total /\
  correct + incorrect = total.
Proof.
  intros Hc self.
  destruct (score_counts_log_fold calls new Hc) as [_ Hscore].
  { split; [constructor|reflexivity]. }
  destruct (log_matches_index_fold calls new) as [Hlen Hle].
  { split; simpl; lia. }
  fold (run calls) in Hscore, Hlen, Hle. fold self in Hscore, Hlen, Hle.
  unfold get_score_summary. rewrite Hscore.
  pose proof (filter_length_le entry_is_correct (user_answers self)) as Hf.
  unfold count_correct. lia.
Qed.

Lemma score_summary_bounds_witness :
  let q := LLMService.question_dict "Q" ["A"; "B"; "C"; "D"]%string "A" "E" in
  let self := run [Load [q; q]; Submit (str "A")] in
  let '(total, correct, incorrect) := get_score_summary self in
  let answered := Z.of_nat (length (user_answers self)) in
  0 <= correct <= answered /\ answered <= total /\
  total - answered <= incorrect <= total /\
  correct + incorrect = total.
Proof.
  intros q.
  apply (score_summary_bounds [Load [q; q]; Submit (str "A")]).
  repeat constructor;
    exists [ (str "question", PyStr (str "Q"));
             (str "options",
              PyList (map (fun o => PyStr (str o)) ["A"; "B"; "C"; "D"]%string));
             (str "correct_answer", PyStr (str "A"));
             (str "explanation", PyStr (str "E")) ];
    do 4 eexists; repeat split; reflexivity.
Defined.

(** X4.  After any sequence of calls, [is_quiz_finished] and
    [get_current_question] agree: the quiz is finished exactly when the
    index has reached the number of questions, a finished quiz has no
    current question, and an unfinished one has the record at the index
    as its current question. *)
Theorem finished_iff_no_question_left (calls : list call) :
  let self := run calls in
  (is_quiz_finished self = true <->
   current_question_index self = Z.of_nat (length (questions self))) /\
  (is_quiz_finished self = true -> get_current_question self = PyNone) /\
  (is_quiz_finished self = false ->
   nth_error (questions self) (Z.to_nat (current_question_index self))
     = Some (get_current_question self)).
Proof.
  intros self.
  destruct (log_matches_index_fold calls new) as [Hlen Hle].
  { split; simpl; lia. }
  fold (run calls) in Hlen, Hle. fold self in Hlen, Hle.
  unfold is_quiz_finished. rewrite Z.geb_leb.
  split; [|split].
  - rewrite Z.leb_le. lia.
  - intros H. apply Z.leb_le in H.
    now apply get_current_question_past_end.
  - intros H. apply Z.leb_gt in H.
    rewrite get_current_question_in_range by lia.
    apply nth_error_nth_default. lia.
Qed.

Lemma truthy_dict (d : dict) (k : text) (v : pyval) :
  dict_get d k = Some v -> py_truthy (PyDict d) = true.
Proof. destruct d; [discriminate|reflexivity]. Qed.

(** X5.  When the current record is a dictionary without a
    [correct_answer], [submit_answer] raises [KeyError] and leaves the
    session as it was. *)
Theorem submit_answer_without_correct_answer (self : QuizManager)
  (chosen_option : text) (d : dict) :
  0 <= current_question_index self < Z.of_nat (length (questions self)) ->
  nth (Z.to_nat (current_question_index self)) (questions self) PyNone
    = PyDict d ->
  d <> [] ->
  dict_get d (str "correct_answer") = None ->
  submit_answer chosen_option self = (self, inl KeyError).
Proof.
  intros Hidx Hnth Hd Hc.
  unfold submit_answer, mbind, read, lift, mret.
  destruct (questions self) as [|q0 qs] eqn:Hqs.
  { simpl in Hidx. lia. }
  cbn [py_truthy length Nat.eqb negb].
  rewrite get_current_question_in_range by (now rewrite Hqs).
  rewrite Hqs, Hnth.
  destruct d as [|kv d']; [contradiction|].
  cbn [py_truthy length Nat.eqb negb]. unfold py_getitem.
  rewrite Hc. reflexivity.
Qed.

Lemma submit_answer_without_correct_answer_witness :
  let self := load_questions new [PyDict [(str "question", PyStr (str "Q"))]] in
  submit_answer (str "A") self = (self, inl KeyError).
Proof.
  intros self.
  apply (submit_answer_without_correct_answer self (str "A")
           [(str "question", PyStr (str "Q"))]).
  - simpl. lia.
  - reflexivity.
  - discriminate.
  - reflexivity.
Defined.

(** X6.  When the current record has a [correct_answer] but lacks one of
    [question], [options] and [explanation], [submit_answer] raises
    [KeyError] after the comparison: the log and the index stay as they
    were, but a correct choice has already been counted in the score. *)
Theorem submit_answer_on_incomplete_record (self : QuizManager)
  (chosen_option : text) (d : dict) (correct_answer : pyval) :
  0 <= current_question_index self < Z.of_nat (length (questions self)) ->
  nth (Z.to_nat (current_question_index self)) (questions self) PyNone
    = PyDict d ->
  dict_get d (str "correct_answer") = Some correct_answer ->
  dict_get d (str "question") = None \/
  dict_get d (str "options") = None \/
  dict_get d (str "explanation") = None ->
  submit_answer chosen_option self =
    (if py_eq (PyStr chosen_option) correct_answer
     then set_score (score self + 1) self else self,
     inl KeyError).
Proof.
  intros Hidx Hnth Hc Hmiss.
  unfold submit_answer, mbind, read, lift, mret, update.
  destruct (questions self) as [|q0 qs] eqn:Hqs.
  { simpl in Hidx. lia. }
  cbn [py_truthy length Nat.eqb negb].
  rewrite get_current_question_in_range by (now rewrite Hqs).
  rewrite Hqs, Hnth, (truthy_dict d _ _ Hc).
  cbn [negb]. unfold py_getitem, ret, raise. rewrite Hc.
  destruct (py_eq (PyStr chosen_option) correct_answer);
    destruct (dict_get d (str "question")) as [qv|];
    destruct (dict_get d (str "options")) as [ov|];
    destruct (dict_get d (str "explanation")) as [ev|];
    try reflexivity;
    destruct Hmiss as [H|[H|H]]; discriminate H.
Qed.

Lemma submit_answer_on_incomplete_record_witness :
  let self :=
    load_questions new [PyDict [(str "correct_answer", PyStr (str "A"))]] in
  submit_answer (str "A") self =
    ({| questions := [PyDict [(str "correct_answer", PyStr (str "A"))]];
        current_question_index := 0;
        user_answers := [];
        score := 1;
        quiz_started := true |}, inl KeyError).
Proof.
  intros self.
  apply (submit_answer_on_incomplete_record self (str "A")
           [(str "correct_answer", PyStr (str "A"))] (PyStr (str "A"))).
  - simpl. lia.
  - reflexivity.
  - reflexivity.
  - left. reflexivity.
Defined.

(** X7.  Whether it returns or raises, a call of [submit_answer] leaves
    the questions and the start flag alone, keeps every entry of the log
    and adds at most one at its end, moves the index on by the number of
    entries added, and raises the score by at most one. *)
Theorem submit_answer_only_appends (self : QuizManager)
  (chosen_option : text) :
  let s := fst (submit_answer chosen_option self) in
  questions s = questions self /\
  quiz_started s = quiz_started self /\
  score self <= score s <= score self + 1 /\
  exists added,
    user_answers s = user_answers self ++ added /\
    (length added <= 1)%nat /\
    current_question_index s
      = current_question_index self + Z.of_nat (length added).
Proof.
  cbv zeta. unfold submit_answer, mbind, read, lift, mret, update.
  assert (Hnone : questions self = questions self /\
                  quiz_started self = quiz_started self /\
                  score self <= score self <= score self + 1 /\
                  exists added,
                    user_answers self = user_answers self ++ added /\
                    (length added <= 1)%nat /\
                    current_question_index self
                      = current_question_index self
                        + Z.of_nat (length added)).
  { repeat split; try lia. exists []. rewrite app_nil_r. simpl.
    repeat split; lia. }
  destruct (negb (py_truthy (PyList (questions self)))); [exact Hnone|].
  destruct (py_truthy (get_current_question self)); [|exact Hnone].
  cbn [negb].
  destruct (py_getitem (get_current_question self) (str "correct_answer"))
    as [e|correct_answer]; [exact Hnone|].
  destruct (py_eq (PyStr chosen_option) correct_answer);
    repeat match goal with
           | |- context [py_getitem ?q ?k] =>
               destruct (py_getitem q k);
               [solve [cbn -[Z.add]; repeat split; try lia;
                       exists []; rewrite app_nil_r; simpl;
                       repeat split; lia]|]
           end;
    cbn -[Z.add]; repeat split; try lia;
    eexists [_]; simpl; repeat split; lia.
Qed.

(** X8.  A current record that is false as a truth value (an empty
    dictionary, [None], zero, an empty string or list) is taken for no
    record: however many answers are submitted, the session stays as it
    is and the quiz is never finished. *)
Theorem falsy_record_stalls_quiz (self : QuizManager) (choices : list text) :
  0 <= current_question_index self < Z.of_nat (length (questions self)) ->
  py_truthy
    (nth (Z.to_nat (current_question_index self)) (questions self) PyNone)
    = false ->
  submit_all self choices = self /\
  is_quiz_finished (submit_all self choices) = false.
Proof.
  intros Hidx Hfalse.
  assert (Hstep : forall c, submit_answer c self
                            = (self, inr (PyNone, PyNone))).
  { intros c. unfold submit_answer, mbind, read, mret.
    destruct (negb (py_truthy (PyList (questions self)))); [reflexivity|].
    rewrite get_current_question_in_range by exact Hidx.
    rewrite Hfalse. reflexivity. }
  assert (Hall : submit_all self choices = self).
  { unfold submit_all. induction choices as [|c choices IH]; [reflexivity|].
    cbn [map fold_left after_call]. rewrite Hstep. exact IH. }
  split; [exact Hall|]. rewrite Hall.
  unfold is_quiz_finished. rewrite Z.geb_leb. apply Z.leb_gt. lia.
Qed.

Lemma falsy_record_stalls_quiz_witness :
  let self := load_questions new [PyDict []] in
  submit_all self [str "A"; str "B"] = self /\
  is_quiz_finished (submit_all self [str "A"; str "B"]) = false.
Proof.
  intros self.
  apply (falsy_record_stalls_quiz self [str "A"; str "B"]).
  - simpl. lia.
  - reflexivity.
Defined.

(** X9.  After any sequence of calls in which the loaded records have the
    four fields, [submit_answer] returns: it raises nothing, whatever is
    chosen. *)
Theorem submit_answer_returns_on_loaded_records (calls : list call)
  (chosen_option : text) :
  Forall well_formed_call calls ->
  exists outcome,
    snd (submit_answer chosen_option (run calls)) = inr outcome.
Proof.
  intros Hc.
  assert (Hwf : Forall has_fields (questions (run calls))).
  { apply has_fields_fold; [exact Hc|constructor]. }
  destruct (submit_answer_well_formed (run calls) chosen_option Hwf)
    as [[Hs _]|[_ (d & qv & ov & cv & ev & _ & _ & _ & _ & _ & Hs)]];
    rewrite Hs; cbn [snd]; eauto.
Qed.

Lemma submit_answer_returns_on_loaded_records_witness :
  let q := LLMService.question_dict "Q" ["A"; "B"; "C"; "D"]%string "A" "E" in
  exists outcome,
    snd (submit_answer (str "B") (run [Load [q]])) = inr outcome.
Proof.
  intros q.
  apply (submit_answer_returns_on_loaded_records [Load [q]] (str "B")).
  repeat constructor;
    exists [ (str "question", PyStr (str "Q"));
             (str "options",
              PyList (map (fun o => PyStr (str o)) ["A"; "B"; "C"; "D"]%string));
             (str "correct_answer", PyStr (str "A"));
             (str "explanation", PyStr (str "E")) ];
    do 4 eexists; repeat split; reflexivity.
Defined.

End SessionRuns.

(** ** More on the question provider *)

Section ProviderEdges.
Import Py LLMService.

#[local] Arguments str : simpl never.

Lemma dict_get_has (d : dict) (k : text) (v : pyval) :
  dict_get d k = Some v -> dict_has d k = true.
Proof. unfold dict_has. now intros ->. Qed.

(** X10.  The validation loop keeps a parsed value exactly when it is a
    dictionary that has the four fields, whose options are a list of four
    entries and whose correct answer compares equal to one of them; a value
    of any other shape, or one on which a check raises, is dropped. *)
Theorem accepted_iff_admitted (q : pyval) :
  accepted q = true <-> admitted_record q.
Proof.
  split; [apply accepted_admitted|].
  intros (d & question & options & correct & explanation & -> & Hq & Ho & Hc
          & He & Hlen & o & Hin & Heq).
  unfold accepted, check_question, required_fields, all_fields_in.
  cbn [py_contains bind ret].
  rewrite (dict_get_has d _ _ Hq), (dict_get_has d _ _ Ho),
    (dict_get_has d _ _ Hc), (dict_get_has d _ _ He).
  cbn [py_getitem]. rewrite Ho. cbn [bind ret]. rewrite Hlen.
  cbn [Nat.eqb]. rewrite Hc. cbn [bind ret py_contains].
  replace (existsb (fun e => py_eqb e correct) options) with true;
    [reflexivity|].
  symmetry. apply existsb_exists. eauto.
Qed.

(** X11.  [generate_quiz_questions] raises in one case only: when the
    model call itself raises [JSONDecodeError], the handler reads the
    response text that was never bound and [UnboundLocalError] escapes.
    Any other exception of the model call gives the empty list. *)
Theorem generate_raises_only_unbound (self : LLMService) (topic : text)
  (num_questions : Z) :
  (forall e,
      generate_quiz_questions self topic num_questions = inl e <->
      generate_content self (build_prompt topic num_questions)
        = inl JSONDecodeError /\ e = UnboundLocalError) /\
  (forall e,
      generate_content self (build_prompt topic num_questions) = inl e ->
      e <> JSONDecodeError ->
      generate_quiz_questions self topic num_questions = inr []).
Proof.
  split.
  - intros e.
    destruct (generate_content self (build_prompt topic num_questions))
      as [e0|raw] eqn:Hm.
    + rewrite (generate_when_model_raises self topic num_questions e0 Hm).
      destruct e0; split; try discriminate;
        try (intros [H _]; discriminate H).
      * intros H. injection H as <-. auto.
      * intros [_ ->]. reflexivity.
    + rewrite (generate_on_text self topic num_questions raw Hm).
      split; [discriminate|intros [H _]; discriminate H].
  - intros e Hm Hne.
    rewrite (generate_when_model_raises self topic num_questions e Hm).
    destruct e; try reflexivity. contradiction.
Qed.

(** X12.  A requested number that is not positive is not rejected: with
    zero the result is empty whatever the model answers, and with a
    negative number the parsed list loses that many records at its end
    before validation. *)
Theorem generate_with_nonpositive_count (self : LLMService) (topic : text)
  (num_questions : Z) (raw : text) :
  num_questions <= 0 ->
  generate_content self (build_prompt topic num_questions) = inr raw ->
  exists qs,
    generate_quiz_questions self topic num_questions = inr qs /\
    (num_questions = 0 -> qs = []) /\
    (forall js parsed,
        num_questions < 0 ->
        Re.search json_array_re raw = Some js ->
        Json.loads (Re.sub trailing_comma_re (str "]") js)
          = inr (PyList parsed) ->
        qs = filter accepted
               (firstn (Z.to_nat (Z.of_nat (length parsed) + num_questions))
                  parsed)).
Proof.
  intros Hn Hm. exists (questions_of_text raw num_questions).
  split; [now apply generate_on_text|].
  split.
  - intros ->. unfold questions_of_text.
    destruct (Re.search json_array_re raw) as [js|]; [|reflexivity].
    destruct (Json.loads _) as [e|v]; [reflexivity|].
    destruct v; try reflexivity.
    rewrite validate_questions_filter, trim_questions_firstn by lia.
    reflexivity.
  - intros js parsed Hneg Hs Hl. unfold questions_of_text. rewrite Hs, Hl.
    rewrite validate_questions_filter. f_equal.
    unfold trim_questions, slice_to.
    replace (Z.of_nat (length parsed) =? num_questions) with false
      by (symmetry; apply Z.eqb_neq; lia).
    replace (Z.of_nat (length parsed) >? num_questions) with true
      by (symmetry; rewrite Z.gtb_ltb; apply Z.ltb_lt; lia).
    replace (0 <=? num_questions) with false
      by (symmetry; apply Z.leb_gt; lia).
    reflexivity.
Qed.

Lemma generate_with_nonpositive_count_witness :
  exists qs,
    generate_quiz_questions (fixed_model three_records_response)
      (str "topic") (-1) = inr qs /\
    (-1 = 0 -> qs = []) /\
    (forall js parsed,
        -1 < 0 ->
        Re.search json_array_re three_records_response = Some js ->
        Json.loads (Re.sub trailing_comma_re (str "]") js)
          = inr (PyList parsed) ->
        qs = filter accepted
               (firstn (Z.to_nat (Z.of_nat (length parsed) + -1)) parsed)).
Proof.
  apply (generate_with_nonpositive_count (fixed_model three_records_response)
           (str "topic") (-1) three_records_response).
  - lia.
  - reflexivity.
Defined.

End ProviderEdges.

(** ** Text around the match *)

Section SurroundingText.
Import Py Re.

Variable post : text.

Lemma proper_suffix_cons (x : char) (t : text) :
  proper_suffix (x :: t) post -> proper_suffix t post.
Proof.
  intros (u & Hu & ->). exists (u ++ [x]). split.
  - destruct u; discriminate.
  - now rewrite <- app_assoc.
Qed.

Lemma proper_suffix_length (t : text) :
  proper_suffix t post -> (length t < length post)%nat.
Proof.
  intros (u & Hu & ->). rewrite length_app.
  destruct u; [contradiction|]. simpl. lia.
Qed.

Lemma proper_suffix_In (x : char) (t : text) :
  proper_suffix (x :: t) post -> In x post.
Proof. intros (u & _ & ->). apply in_or_app. right. now left. Qed.

Lemma proper_suffix_tail (x : char) (p : text) :
  post = x :: p -> proper_suffix p post.
Proof. intros ->. exists [x]. split; [discriminate|reflexivity]. Qed.

Lemma rmatch_fails (r : regex) :
  forall s k, (forall t, k t = None) -> rmatch r s k = None.
Proof.
  induction r as [c| | |r1 IH1 r2 IH2|r1 IH1]; intros s k Hk; simpl.
  - destruct s as [|x s']; [reflexivity|]. destruct (N.eqb x c); auto.
  - destruct s as [|x s']; auto.
  - destruct s as [|x s']; [reflexivity|]. destruct (is_space x); auto.
  - apply IH1. intros t. now apply IH2.
  - generalize (length s) as n. intros n. revert s.
    induction n as [|n IHn]; intros s; simpl; [apply Hk|].
    rewrite IH1; [apply Hk|].
    intros t. destruct (Nat.ltb _ _); [apply IHn|reflexivity].
Qed.

(** The loop of a star, on an input that ends inside [post]. *)
Lemma star_loop_inside body k' :
  (forall K K', agree_up_to post K K' ->
                agree_up_to post (fun s => body s K) (fun s => body s K')) ->
  (forall t', proper_suffix t' post -> k' t' = None) ->
  forall n t', proper_suffix t' post -> star_loop body k' n t' = None.
Proof.
  intros Hbody Hk' n. induction n as [|n IHn]; intros t' Ht; simpl.
  - now apply Hk'.
  - assert (Hag : agree_up_to post (fun _ => None)
                    (fun s' => if Nat.ltb (length s') (length t')
                               then star_loop body k' n s' else None)).
    { split.
      - intros t. apply proper_suffix_length in Ht.
        replace (Nat.ltb (length (t ++ post)) (length t')) with false;
          [reflexivity|].
        symmetry. apply Nat.ltb_ge. rewrite length_app. lia.
      - intros t'' Ht''. destruct (Nat.ltb _ _); [now apply IHn|reflexivity]. }
    apply Hbody in Hag. destruct Hag as [_ Hin].
    rewrite (Hin t' Ht). now apply Hk'.
Qed.

(** The loop of a star, on an input that has all of [post] behind it. *)
Lemma star_loop_before body k k' :
  (forall K K', agree_up_to post K K' ->
                agree_up_to post (fun s => body s K) (fun s => body s K')) ->
  (forall s K, (forall t, K t = None) -> body s K = None) ->
  agree_up_to post k k' ->
  forall m n s,
    (length s <= m)%nat -> (length (s ++ post) <= n)%nat ->
    star_loop body k' n (s ++ post) = extend post (star_loop body k m s).
Proof.
  intros Hbody Hfail [Hk Hk'] m.
  induction m as [|m IHm]; intros n s Hm Hn.
  - destruct s; [|simpl in Hm; lia]. cbn [app star_loop].
    destruct n as [|n]; cbn [star_loop]; [apply (Hk [])|].
    assert (Hag : agree_up_to post (fun _ => None)
                    (fun s' => if Nat.ltb (length s') (length post)
                               then star_loop body k' n s' else None)).
    { split.
      - intros t.
        replace (Nat.ltb (length (t ++ post)) (length post)) with false;
          [reflexivity|].
        symmetry. apply Nat.ltb_ge. rewrite length_app. lia.
      - intros t'' Ht''. destruct (Nat.ltb _ _); [|reflexivity].
        now apply star_loop_inside. }
    apply Hbody in Hag. destruct Hag as [Hbefore _].
    specialize (Hbefore []). cbn [app] in Hbefore. rewrite Hbefore.
    rewrite Hfail by reflexivity. cbn [extend option_map]. apply (Hk []).
  - destruct n as [|n].
    { assert (s = [] /\ post = []) as [-> Hp].
      { rewrite length_app in Hn.
        destruct s; [|simpl in Hn; lia].
        split; [reflexivity|]. destruct post; [reflexivity|simpl in Hn; lia]. }
      cbn [app star_loop]. rewrite Hfail.
      - apply (Hk []).
      - intros t. reflexivity. }
    cbn [star_loop].
    assert (Hag : agree_up_to post
                    (fun s' => if Nat.ltb (length s') (length s)
                               then star_loop body k m s' else None)
                    (fun s' => if Nat.ltb (length s') (length (s ++ post))
                               then star_loop body k' n s' else None)).
    { split.
      - intros t. rewrite !length_app.
        destruct (Nat.ltb (length t) (length s)) eqn:L.
        + apply Nat.ltb_lt in L.
          replace (Nat.ltb (length t + length post)
                     (length s + length post)) with true
            by (symmetry; apply Nat.ltb_lt; lia).
          apply IHm; [lia|]. rewrite length_app in *. lia.
        + apply Nat.ltb_ge in L.
          replace (Nat.ltb (length t + length post)
                     (length s + length post)) with false
            by (symmetry; apply Nat.ltb_ge; lia).
          reflexivity.
      - intros t'' Ht''. destruct (Nat.ltb _ _); [|reflexivity].
        now apply star_loop_inside. }
    apply Hbody in Hag. destruct Hag as [Hbefore _].
    rewrite (Hbefore s).
    destruct (body s _) as [rest|]; [reflexivity|]. apply Hk.
Qed.

(** The matcher does not see what lies behind its input, as long as every
    continuation fails inside that text. *)
Lemma rmatch_agree_up_to (r : regex) :
  forall k k', agree_up_to post k k' ->
               agree_up_to post (fun s => rmatch r s k)
                 (fun s => rmatch r s k').
Proof.
  induction r as [c| | |r1 IH1 r2 IH2|r1 IH1]; intros k k' [Hk Hk'].
  - split.
    + intros [|x t]; cbn [app rmatch].
      * destruct post as [|y p] eqn:Hp; [reflexivity|].
        destruct (N.eqb y c); [|reflexivity].
        rewrite <- Hp in *. rewrite Hk'; [reflexivity|].
        now apply (proper_suffix_tail y).
      * destruct (N.eqb x c); [apply Hk|reflexivity].
    + intros [|x t] Ht; cbn [rmatch]; [reflexivity|].
      destruct (N.eqb x c); [|reflexivity].
      apply Hk'. now apply proper_suffix_cons in Ht.
  - split.
    + intros [|x t]; cbn [app rmatch].
      * destruct post as [|y p] eqn:Hp; [reflexivity|].
        rewrite <- Hp in *. rewrite Hk'; [reflexivity|].
        now apply (proper_suffix_tail y).
      * apply Hk.
    + intros [|x t] Ht; cbn [rmatch]; [reflexivity|].
      apply Hk'. now apply proper_suffix_cons in Ht.
  - split.
    + intros [|x t]; cbn [app rmatch].
      * destruct post as [|y p] eqn:Hp; [reflexivity|].
        destruct (is_space y); [|reflexivity].
        rewrite <- Hp in *. rewrite Hk'; [reflexivity|].
        now apply (proper_suffix_tail y).
      * destruct (is_space x); [apply Hk|reflexivity].
    + intros [|x t] Ht; cbn [rmatch]; [reflexivity|].
      destruct (is_space x); [|reflexivity].
      apply Hk'. now apply proper_suffix_cons in Ht.
  - cbn [rmatch]. apply (IH1 (fun s' => rmatch r2 s' k)
                           (fun s' => rmatch r2 s' k')).
    apply IH2. now split.
  - split.
    + intros t. cbn [rmatch].
      apply star_loop_before; try lia.
      * exact IH1.
      * intros s K HK. now apply rmatch_fails.
      * now split.
    + intros t' Ht. cbn [rmatch]. now apply star_loop_inside.
Qed.

(** A pattern that ends with a literal that does not occur in [post]
    matches before [post] as it matches at the end of the text. *)
Lemma rmatch_before_text (c : char) (r : regex) :
  ends_in c r -> ~ In c post ->
  agree_up_to post (fun s => rmatch r s Some) (fun s => rmatch r s Some).
Proof.
  intros Hr Hc. induction Hr as [|r1 r2 Hr IH].
  - split.
    + intros [|x t]; cbn [app rmatch].
      * destruct post as [|y p] eqn:Hp; [reflexivity|].
        destruct (N.eqb y c) eqn:E; [|reflexivity].
        apply N.eqb_eq in E. subst y. exfalso. apply Hc. now left.
      * destruct (N.eqb x c); reflexivity.
    + intros [|x t] Ht; cbn [rmatch]; [reflexivity|].
      destruct (N.eqb x c) eqn:E; [|reflexivity].
      apply N.eqb_eq in E. subst x. exfalso. apply Hc.
      now apply proper_suffix_In in Ht.
  - cbn [rmatch]. now apply rmatch_agree_up_to.
Qed.

End SurroundingText.

Section ResponseWrapping.
Import Py Re LLMService.

Lemma search_skip_prefix (c : char) (r : regex) (pre s : text) :
  ~ In c pre ->
  search (Cat (Lit c) r) (pre ++ s) = search (Cat (Lit c) r) s.
Proof.
  induction pre as [|x pre IH]; intros Hc; [reflexivity|].
  cbn [app search rmatch].
  destruct (N.eqb x c) eqn:E.
  - apply N.eqb_eq in E. subst x. exfalso. apply Hc. now left.
  - apply IH. intros Hin. apply Hc. now right.
Qed.

Lemma matched_length (s rest : text) :
  (length (matched s rest) <= length s)%nat.
Proof. unfold matched. rewrite length_firstn. lia. Qed.

Lemma search_length (r : regex) (s m : text) :
  search r s = Some m -> (length m <= length s)%nat.
Proof.
  induction s as [|x s IH]; cbn [search].
  - destruct (rmatch r [] Some); [|discriminate].
    intros H. injection H as <-. apply matched_length.
  - destruct (rmatch r (x :: s) Some).
    + intros H. injection H as <-. apply matched_length.
    + intros H. apply IH in H. simpl. lia.
Qed.

(** When the match found in a text is the whole text, the matcher consumes
    the text to its end. *)
Lemma search_whole (r : regex) (body : text) :
  body <> [] -> search r body = Some body -> rmatch r body Some = Some [].
Proof.
  intros Hne. destruct body as [|x body]; [contradiction|].
  cbn [search].
  destruct (rmatch r (x :: body) Some) as [rest|] eqn:E.
  - intros H. injection H as H.
    assert (Hl : length (matched (x :: body) rest) = length (x :: body))
      by now rewrite H.
    unfold matched in Hl. rewrite length_firstn in Hl.
    destruct rest; [reflexivity|]. simpl in Hl. lia.
  - intros H. apply search_length in H. simpl in H. lia.
Qed.

(** X13.  Text around the array does not change what is extracted: when
    the pattern's match in [body] is [body] itself, the text before it has
    no opening bracket and the text after it no closing bracket, then the
    search in the whole response finds [body], and the response is
    processed like [body] alone. *)
Theorem response_around_array_is_ignored (pre body post : text)
  (num_questions : Z) :
  ~ In (ch "[") pre ->
  ~ In (ch "]") post ->
  search json_array_re body = Some body ->
  search json_array_re (pre ++ body ++ post) = Some body /\
  parse_response (pre ++ body ++ post) num_questions
    = parse_response body num_questions.
Proof.
  intros Hpre Hpost Hbody.
  assert (Hs : search json_array_re (pre ++ body ++ post) = Some body).
  { unfold json_array_re in *. rewrite search_skip_prefix by exact Hpre.
    assert (Hne : body <> []).
    { intros ->. discriminate Hbody. }
    apply search_whole in Hbody; [|exact Hne].
    assert (Hend : ends_in (ch "]")
                     (Cat (Lit (ch "[")) (Cat (Star Space)
                        (Cat object_re
                           (Cat (Star (Cat (Lit (ch ","))
                                         (Cat (Star Space) object_re)))
                              (Lit (ch "]"))))))).
    { repeat constructor. }
    destruct (rmatch_before_text post (ch "]") _ Hend Hpost) as [Hbefore _].
    specialize (Hbefore body). cbv beta in Hbefore.
    rewrite Hbody in Hbefore. cbn [extend option_map app] in Hbefore.
    destruct body as [|x body']; [contradiction|].
    cbn [app]. cbn [search]. cbn [app] in Hbefore. rewrite Hbefore.
    unfold matched. f_equal.
    change (x :: body' ++ post) with ((x :: body') ++ post).
    rewrite length_app.
    replace (length (x :: body') + length post - length post)%nat
      with (length (x :: body')) by lia.
    rewrite firstn_app, firstn_all, Nat.sub_diag. cbn [firstn].
    apply app_nil_r. }
  split; [exact Hs|].
  unfold parse_response. now rewrite Hs, Hbody.
Qed.

Lemma response_around_array_is_ignored_witness :
  search json_array_re
    (str "Here are your questions: " ++ three_records_response
       ++ str " Good luck!") = Some three_records_response /\
  parse_response
    (str "Here are your questions: " ++ three_records_response
       ++ str " Good luck!") 3
    = parse_response three_records_response 3.
Proof.
  apply (response_around_array_is_ignored (str "Here are your questions: ")
           three_records_response (str " Good luck!") 3).
  - vm_compute. intuition discriminate.
  - vm_compute. intuition discriminate.
  - vm_compute. reflexivity.
Defined.

End ResponseWrapping.

(** ** The callers in [app.py] *)

Section AppFacts.
Import Py App.

#[local] Arguments str : simpl never.

Lemma text_eqb_sym (a b : text) : text_eqb a b = text_eqb b a.
Proof.
  revert b. induction a as [|x a IH]; intros [|y b]; simpl; try reflexivity.
  now rewrite N.eqb_sym, IH.
Qed.

Lemma dict_get_set (d : dict) (k k' : text) (v : pyval) :
  dict_get (dict_set d k v) k' =
  if text_eqb k' k then Some v else dict_get d k'.
Proof.
  induction d as [|[k0 v0] d IH]; simpl.
  - reflexivity.
  - destruct (text_eqb k k0) eqn:E; simpl.
    + apply text_eqb_eq in E. subst k0.
      destruct (text_eqb k' k); reflexivity.
    + rewrite IH. destruct (text_eqb k' k0) eqn:E0; [|reflexivity].
      apply text_eqb_eq in E0. subst k0.
      rewrite text_eqb_sym in E. now rewrite E.
Qed.

Lemma dict_has_get_none (d : dict) (k : text) :
  dict_has d k = false <-> dict_get d k = None.
Proof.
  unfold dict_has. destruct (dict_get d k); split; congruence.
Qed.

(** The loop of [initialize_session_state], for any table of defaults. *)
Lemma initialize_fold (defaults : dict) :
  forall st k,
    dict_get
      (fold_left
         (fun st kv => if dict_has st (fst kv) then st
                       else dict_set st (fst kv) (snd kv))
         defaults st) k
    = match dict_get st k with
      | Some v => Some v
      | None => dict_get defaults k
      end.
Proof.
  induction defaults as [|[key v] defaults IH]; intros st k; cbn [fold_left].
  - simpl. now destruct (dict_get st k).
  - rewrite IH. cbn [fst snd dict_get].
    destruct (dict_has st key) eqn:H.
    + destruct (dict_get st k) as [x|] eqn:G; [reflexivity|].
      destruct (text_eqb k key) eqn:E; [|reflexivity].
      apply text_eqb_eq in E. subst key.
      unfold dict_has in H. rewrite G in H. discriminate.
    + rewrite dict_get_set.
      apply dict_has_get_none in H.
      destruct (text_eqb k key) eqn:E.
      * apply text_eqb_eq in E. subst key. now rewrite H.
      * reflexivity.
Qed.

(** X14.  [initialize_session_state] never replaces a value the session
    state already holds; a key that is missing gets its default, and a key
    without a default stays missing.  Running it again changes nothing. *)
Theorem initialize_session_state_fills_gaps (st : session_state) (k : text) :
  dict_get (initialize_session_state st) k
    = match dict_get st k with
      | Some v => Some v
      | None => dict_get default_values k
      end /\
  dict_get (initialize_session_state (initialize_session_state st)) k
    = dict_get (initialize_session_state st) k.
Proof.
  unfold initialize_session_state. rewrite !initialize_fold.
  split; [reflexivity|].
  destruct (dict_get st k); [reflexivity|].
  now destruct (dict_get default_values k).
Qed.

(** The loop of [reset_quiz_state], for any list of keys. *)
Lemma reset_fold (keys : list text) :
  forall st k,
    dict_get
      (fold_left
         (fun st key => if dict_has st key
                        then dict_set st key (reset_value key) else st)
         keys st) k
    = match dict_get st k with
      | Some v => if existsb (text_eqb k) keys then Some (reset_value k)
                  else Some v
      | None => None
      end.
Proof.
  induction keys as [|key keys IH]; intros st k; cbn [fold_left existsb].
  - now destruct (dict_get st k).
  - rewrite IH.
    destruct (dict_has st key) eqn:H.
    + rewrite dict_get_set.
      destruct (text_eqb k key) eqn:E.
      * apply text_eqb_eq in E. subst key.
        apply dict_has_get in H as [v H]. rewrite H. cbn [orb].
        now destruct (existsb (text_eqb k) keys).
      * cbn [orb]. reflexivity.
    + apply dict_has_get_none in H.
      destruct (text_eqb k key) eqn:E.
      * apply text_eqb_eq in E. subst key. now rewrite H.
      * cbn [orb]. reflexivity.
Qed.

Lemma reset_quiz_state_get (st : session_state) (k : text) :
  dict_get (reset_quiz_state st) k
  = match dict_get st k with
    | Some v =>
        if text_eqb k (str "current_topic") then Some (PyStr (str ""))
        else if existsb (text_eqb k) keys_to_reset then Some (reset_value k)
             else Some v
    | None => None
    end.
Proof.
  unfold reset_quiz_state.
  match goal with
  | |- context [fold_left ?f keys_to_reset st] =>
      set (st1 := fold_left f keys_to_reset st)
  end.
  assert (H1 : forall k', dict_get st1 k'
                = match dict_get st k' with
                  | Some v => if existsb (text_eqb k') keys_to_reset
                              then Some (reset_value k') else Some v
                  | None => None
                  end).
  { intros k'. apply reset_fold. }
  destruct (dict_has st1 (str "current_topic")) eqn:H.
  - rewrite dict_get_set, H1.
    destruct (text_eqb k (str "current_topic")) eqn:E.
    + apply text_eqb_eq in E. subst k.
      apply dict_has_get in H as [v H]. rewrite H1 in H.
      destruct (dict_get st (str "current_topic")); [reflexivity|discriminate].
    + reflexivity.
  - rewrite H1. apply dict_has_get_none in H. rewrite H1 in H.
    destruct (text_eqb k (str "current_topic")) eqn:E; [|reflexivity].
    apply text_eqb_eq in E. subst k.
    destruct (dict_get st (str "current_topic")); [|reflexivity].
    vm_compute in H. discriminate.
Qed.

(** X15.  [reset_quiz_state] creates no key and touches only its six: of
    those the state holds, [quiz_started], [feedback_shown] and
    [show_next_button] become [False], [selected_option] and
    [answer_submitted] become [None], and [current_topic] becomes the
    empty string.  Every other key, such as [num_questions], keeps its
    value. *)
Theorem reset_quiz_state_effect (st : session_state) (k : text) (v : pyval) :
  (dict_get st k = None -> dict_get (reset_quiz_state st) k = None) /\
  (dict_get st k = Some v ->
   dict_get (reset_quiz_state st) k =
   Some (if text_eqb k (str "quiz_started") || text_eqb k (str "feedback_shown")
            || text_eqb k (str "show_next_button")
         then PyBool false
         else if text_eqb k (str "selected_option")
                 || text_eqb k (str "answer_submitted")
         then PyNone
         else if text_eqb k (str "current_topic") then PyStr (str "")
         else v)).
Proof.
  rewrite reset_quiz_state_get. split; intros H; rewrite H; [reflexivity|].
  unfold keys_to_reset. cbn [existsb].
  repeat match goal with
         | |- context [text_eqb k ?key] =>
             let E := fresh "E" in
             destruct (text_eqb k key) eqn:E;
             [apply text_eqb_eq in E; subst k; vm_compute; reflexivity|]
         end.
  reflexivity.
Qed.

Lemma generate_raises_unbound (self : LLMService.LLMService) (topic : text)
  (n : Z) (e : exn) :
  LLMService.generate_quiz_questions self topic n = inl e ->
  e = UnboundLocalError.
Proof.
  destruct (LLMService.generate_content self (LLMService.build_prompt topic n))
    as [e0|raw] eqn:Hm.
  - rewrite (generate_when_model_raises self topic n e0 Hm).
    destruct e0; intros H; try discriminate. now injection H as <-.
  - rewrite (generate_on_text self topic n raw Hm). discriminate.
Qed.

Lemma generate_length (self : LLMService.LLMService) (topic : text) (n : Z)
  (qs : list pyval) :
  0 <= n ->
  LLMService.generate_quiz_questions self topic n = inr qs ->
  Z.of_nat (length qs) <= n.
Proof.
  intros Hn.
  destruct (LLMService.generate_content self (LLMService.build_prompt topic n))
    as [e0|raw] eqn:Hm.
  - rewrite (generate_when_model_raises self topic n e0 Hm).
    destruct e0; intros H; try discriminate; injection H as <-; simpl; lia.
  - rewrite (generate_on_text self topic n raw Hm).
    intros H. injection H as <-. now apply questions_of_text_length.
Qed.

(** On the service of this program the retry with positional arguments
    is never entered: one call is made, and an exception gives [None]. *)
Lemma generate_questions_safely_one_call (complains : nat -> bool)
  (b : backend) (k : nat) (topic : text) (n : Z) :
  generate_questions_safely complains b k topic n =
  (S k,
   inr match LLMService.generate_quiz_questions (service_at b k) topic n with
       | inr questions => Some questions
       | inl _ => None
       end).
Proof.
  unfold generate_questions_safely.
  destruct (LLMService.generate_quiz_questions (service_at b k) topic n)
    as [e|qs] eqn:Hg; [|reflexivity].
  apply generate_raises_unbound in Hg. subst e. reflexivity.
Qed.

Lemma retry_result_same (qs : list pyval) (n : Z) :
  Z.of_nat (length qs) <= n -> retry_result qs n = qs.
Proof.
  intros H. unfold retry_result.
  destruct (Z.of_nat (length qs) =? n); [reflexivity|].
  replace (Z.of_nat (length qs) >? n) with false; [reflexivity|].
  symmetry. rewrite Z.gtb_ltb. apply Z.ltb_ge. exact H.
Qed.

Lemma retry_loop_first_success (complains : nat -> bool) (b : backend)
  (topic : text) (n max_retries : Z) :
  0 <= n ->
  forall r a k,
    (a + r = Z.to_nat max_retries)%nat ->
    retry_loop complains b topic n max_retries
      (map Z.of_nat (seq a r)) k
    = first_success b topic n r k.
Proof.
  intros Hn r. induction r as [|r IH]; intros a k Har; [reflexivity|].
  cbn [seq map retry_loop first_success].
  rewrite generate_questions_safely_one_call.
  assert (Hgo : (if Z.of_nat a <? max_retries - 1
                 then retry_loop complains b topic n max_retries
                        (map Z.of_nat (seq (S a) r)) (S k)
                 else (S k, None))
                = first_success b topic n r (S k)).
  { destruct r as [|r'].
    - cbn [seq map retry_loop first_success].
      now destruct (Z.of_nat a <? max_retries - 1).
    - replace (Z.of_nat a <? max_retries - 1) with true
        by (symmetry; apply Z.ltb_lt; lia).
      apply IH. lia. }
  destruct (LLMService.generate_quiz_questions (service_at b k) topic n)
    as [e|[|q qs]] eqn:Hg.
  - exact Hgo.
  - cbn [py_truthy length Nat.eqb negb]. exact Hgo.
  - cbn [py_truthy length Nat.eqb negb].
    rewrite retry_result_same; [reflexivity|].
    now apply (generate_length (service_at b k) topic).
Qed.

Lemma generate_questions_with_retry_first_success (complains : nat -> bool)
  (b : backend) (topic : text) (n max_retries : Z) (k : nat) :
  0 <= n ->
  generate_questions_with_retry complains b topic n max_retries k
  = first_success b topic n (Z.to_nat max_retries) k.
Proof.
  intros Hn. unfold generate_questions_with_retry, py_range.
  now apply retry_loop_first_success.
Qed.

Lemma first_success_some (b : backend) (topic : text) (n : Z) :
  forall r k k' qs,
    first_success b topic n r k = (k', Some qs) ->
    exists j, (j < r)%nat /\ k' = S (k + j) /\ qs <> [] /\
      LLMService.generate_quiz_questions (service_at b (k + j)) topic n
        = inr qs.
Proof.
  induction r as [|r IH]; intros k k' qs H; cbn [first_success] in H;
    [discriminate|].
  destruct (LLMService.generate_quiz_questions (service_at b k) topic n)
    as [e|[|q qs0]] eqn:Hg.
  - apply IH in H as (j & Hj & -> & Hne & Hgen).
    exists (S j). replace (k + S j)%nat with (S k + j)%nat by lia.
    repeat split; try assumption; lia.
  - apply IH in H as (j & Hj & -> & Hne & Hgen).
    exists (S j). replace (k + S j)%nat with (S k + j)%nat by lia.
    repeat split; try assumption; lia.
  - injection H as <- <-. exists 0%nat. rewrite Nat.add_0_r.
    repeat split; try assumption; try lia. discriminate.
Qed.

Lemma retry_result_holds (complains : nat -> bool) (b : backend)
  (topic : text) (n max_retries : Z) (k k' : nat) (qs : list pyval) :
  0 <= n ->
  generate_questions_with_retry complains b topic n max_retries k
    = (k', Some qs) ->
  qs <> [] /\ Z.of_nat (length qs) <= n /\ Forall QuizLogic.has_fields qs.
Proof.
  intros Hn H.
  rewrite generate_questions_with_retry_first_success in H by exact Hn.
  apply first_success_some in H as (j & Hj & -> & Hne & Hgen).
  repeat split.
  - exact Hne.
  - now apply (generate_length (service_at b (k + j)) topic).
  - now apply (generate_output_loadable (service_at b (k + j)) topic n).
Qed.

(** X16.  For a requested number that is not negative, what
    [generate_questions_with_retry] returns is [None] or a list that is not
    empty, has at most the requested number of records, each of which has
    the four fields the session reads; it is the list some call of the
    provider returned, unchanged. *)
Theorem retry_result_is_loadable (complains : nat -> bool) (b : backend)
  (topic : text) (num_questions max_retries : Z) (k k' : nat)
  (qs : list pyval) :
  0 <= num_questions ->
  generate_questions_with_retry complains b topic num_questions max_retries k
    = (k', Some qs) ->
  qs <> [] /\
  Z.of_nat (length qs) <= num_questions /\
  Forall LLMService.admitted_record qs /\
  Forall QuizLogic.has_fields qs /\
  exists j, (j < Z.to_nat max_retries)%nat /\
    LLMService.generate_quiz_questions (service_at b (k + j)) topic
      num_questions = inr qs.
Proof.
  intros Hn H.
  rewrite generate_questions_with_retry_first_success in H by exact Hn.
  apply first_success_some in H as (j & Hj & -> & Hne & Hgen).
  repeat split.
  - exact Hne.
  - now apply (generate_length (service_at b (k + j)) topic).
  - now apply (generate_output_admitted (service_at b (k + j)) topic
                 num_questions).
  - now apply (generate_output_loadable (service_at b (k + j)) topic
                 num_questions).
  - eauto.
Qed.

Lemma retry_result_is_loadable_witness :
  let b : backend :=
    fun k _ => match k with
               | O => inl OtherException
               | _ => inr LLMService.three_records_response
               end in
  let qs := LLMService.questions_of_text LLMService.three_records_response 3 in
  qs <> [] /\
  Z.of_nat (length qs) <= 3 /\
  Forall LLMService.admitted_record qs /\
  Forall QuizLogic.has_fields qs /\
  exists j, (j < Z.to_nat 3)%nat /\
    LLMService.generate_quiz_questions (service_at b (0 + j)) (str "topic") 3
      = inr qs.
Proof.
  intros b qs.
  apply (retry_result_is_loadable (fun _ => false) b (str "topic") 3 3 0 2 qs).
  - lia.
  - vm_compute. reflexivity.
Defined.

(** X17.  [generate_questions_with_retry] stops at the first call of the
    provider that returns a list that is not empty and returns that list;
    calls that raise or return the empty list are passed over, and after
    [max_retries] of them the result is [None].  It calls the provider at
    most [max_retries] times. *)
Theorem retry_stops_at_first_success (complains : nat -> bool) (b : backend)
  (topic : text) (num_questions max_retries : Z) (k : nat) :
  0 <= num_questions ->
  let nothing (i : nat) :=
    forall q qs,
      LLMService.generate_quiz_questions (service_at b (k + i)) topic
        num_questions <> inr (q :: qs) in
  (forall j q qs,
      (j < Z.to_nat max_retries)%nat ->
      (forall i, (i < j)%nat -> nothing i) ->
      LLMService.generate_quiz_questions (service_at b (k + j)) topic
        num_questions = inr (q :: qs) ->
      generate_questions_with_retry complains b topic num_questions
        max_retries k = (S (k + j), Some (q :: qs))) /\
  ((forall i, (i < Z.to_nat max_retries)%nat -> nothing i) ->
   generate_questions_with_retry complains b topic num_questions
     max_retries k = ((k + Z.to_nat max_retries)%nat, None)) /\
  (fst (generate_questions_with_retry complains b topic num_questions
          max_retries k) <= k + Z.to_nat max_retries)%nat.
Proof.
  intros Hn nothing.
  rewrite generate_questions_with_retry_first_success by exact Hn.
  generalize (Z.to_nat max_retries) as r. intros r.
  assert (Hskip : forall r k0,
             (forall i, (i < r)%nat ->
                forall q qs,
                  LLMService.generate_quiz_questions (service_at b (k0 + i))
                    topic num_questions <> inr (q :: qs)) ->
             forall r', first_success b topic num_questions (r + r') k0
                        = first_success b topic num_questions r' (k0 + r)%nat).
  { induction r0 as [|r0 IH]; intros k0 Hno r'.
    - now rewrite Nat.add_0_r.
    - cbn [Nat.add first_success].
      pose proof (Hno 0%nat ltac:(lia)) as H0. rewrite Nat.add_0_r in H0.
      destruct (LLMService.generate_quiz_questions (service_at b k0) topic
                  num_questions) as [e|[|q qs]];
        try (exfalso; now apply (H0 q qs));
        (rewrite IH;
         [f_equal; lia
         |intros i Hi q' qs'; replace (S k0 + i)%nat with (k0 + S i)%nat by lia;
          apply Hno; lia]). }
  split; [|split].
  - intros j q qs Hj Hno Hgen.
    replace r with (j + (r - j))%nat by lia.
    rewrite Hskip by exact Hno.
    destruct (r - j)%nat as [|r'] eqn:E; [lia|].
    cbn [first_success]. rewrite Hgen. reflexivity.
  - intros Hno. replace r with (r + 0)%nat at 1 by lia.
    rewrite Hskip by exact Hno. reflexivity.
  - clear Hskip nothing. revert k.
    induction r as [|r IH]; intros k; cbn [first_success]; [simpl; lia|].
    destruct (LLMService.generate_quiz_questions (service_at b k) topic
                num_questions) as [e|[|q qs]];
      try (specialize (IH (S k)); lia).
    simpl. lia.
Qed.

Lemma retry_stops_at_first_success_witness :
  let b : backend :=
    fun k _ => match k with
               | O => inl OtherException
               | _ => inr LLMService.three_records_response
               end in
  fst (generate_questions_with_retry (fun _ => false) b (str "topic") 3 3 0)
    = 2%nat.
Proof.
  intros b.
  destruct (retry_stops_at_first_success (fun _ => false) b (str "topic") 3 3
              0 ltac:(lia)) as [Hfirst _].
  destruct (LLMService.questions_of_text LLMService.three_records_response 3)
    as [|q qs] eqn:E; [vm_compute in E; discriminate|].
  rewrite (Hfirst 1%nat q qs).
  - reflexivity.
  - simpl. lia.
  - intros i Hi q' qs'. assert (i = 0%nat) by lia. subst i. discriminate.
  - rewrite <- E. vm_compute. reflexivity.
Defined.

(** X18.  Pressing a topic button either leaves the quiz manager as it
    was, with the topic stored in the session state, or starts a quiz: the
    manager then holds between one and the selected number of records with
    the four fields and is not finished, [quiz_started] is set, and the
    topic just stored has been replaced by the empty string, because
    [reset_quiz_state] runs after it was stored. *)
Theorem choose_topic_outcome (complains : nat -> bool) (b : backend)
  (k : nat) (selected_number : Z) (topic : text) (st : session_state)
  (quiz_manager : QuizLogic.QuizManager) :
  0 <= selected_number ->
  let '(_, st', quiz_manager') :=
    choose_topic complains b k selected_number topic st quiz_manager in
  (quiz_manager' = quiz_manager /\
   dict_get st' (str "current_topic") = Some (PyStr topic) /\
   dict_get st' (str "quiz_started") = dict_get st (str "quiz_started"))
  \/
  (exists qs,
      qs <> [] /\
      Z.of_nat (length qs) <= selected_number /\
      Forall QuizLogic.has_fields qs /\
      quiz_manager' = QuizLogic.load_questions quiz_manager qs /\
      QuizLogic.is_quiz_finished quiz_manager' = false /\
      dict_get st' (str "quiz_started") = Some (PyBool true) /\
      dict_get st' (str "current_topic") = Some (PyStr (str "")) /\
      dict_get st' (str "num_questions") = Some (PyInt selected_number)).
Proof.
  intros Hn. unfold choose_topic.
  destruct (generate_questions_with_retry complains b topic selected_number 3
              k) as [k' [[|q qs]|]] eqn:Hr.
  - left. repeat split; rewrite !dict_get_set; reflexivity.
  - right. exists (q :: qs).
    apply retry_result_holds in Hr; [|exact Hn].
    destruct Hr as (Hne & Hlen & Hwf).
    split; [exact Hne|]. split; [exact Hlen|]. split; [exact Hwf|].
    split; [reflexivity|]. split; [|split; [|split]].
    + unfold QuizLogic.is_quiz_finished. cbn [QuizLogic.load_questions
        QuizLogic.questions QuizLogic.current_question_index length].
      rewrite Z.geb_leb. apply Z.leb_gt. lia.
    + rewrite dict_get_set. reflexivity.
    + rewrite dict_get_set.
      change (text_eqb (str "current_topic") (str "quiz_started")) with false.
      cbv iota. rewrite reset_quiz_state_get, !dict_get_set. reflexivity.
    + rewrite dict_get_set.
      change (text_eqb (str "num_questions") (str "quiz_started")) with false.
      cbv iota. rewrite reset_quiz_state_get, !dict_get_set. reflexivity.
  - left. repeat split; rewrite !dict_get_set; reflexivity.
Qed.

Lemma choose_topic_outcome_witness :
  let b : backend := fun _ _ => inr LLMService.three_records_response in
  let '(_, st', quiz_manager') :=
    choose_topic (fun _ => false) b 0 3 (str "History")
      (initialize_session_state []) QuizLogic.new in
  (quiz_manager' = QuizLogic.new /\
   dict_get st' (str "current_topic") = Some (PyStr (str "History")) /\
   dict_get st' (str "quiz_started")
     = dict_get (initialize_session_state []) (str "quiz_started"))
  \/
  (exists qs,
      qs <> [] /\
      Z.of_nat (length qs) <= 3 /\
      Forall QuizLogic.has_fields qs /\
      quiz_manager' = QuizLogic.load_questions QuizLogic.new qs /\
      QuizLogic.is_quiz_finished quiz_manager' = false /\
      dict_get st' (str "quiz_started") = Some (PyBool true) /\
      dict_get st' (str "current_topic") = Some (PyStr (str "")) /\
      dict_get st' (str "num_questions") = Some (PyInt 3)).
Proof.
  intros b.
  apply (choose_topic_outcome (fun _ => false) b 0 3 (str "History")
           (initialize_session_state []) QuizLogic.new).
  lia.
Defined.

End AppFacts.

(** ** The answer log on the results page and in the export *)

Section LogConsumers.
Import Py QuizLogic FileExporter App.

#[local] Arguments str : simpl never.

(** Whatever [submit_answer] adds to the log is an entry it has built. *)
Lemma submit_answer_adds_built (self : QuizManager) (chosen_option : text) :
  exists added,
    user_answers (fst (submit_answer chosen_option self))
      = user_answers self ++ added /\
    Forall built_entry added.
Proof.
  unfold submit_answer, mbind, read, lift, mret, update.
  assert (Hnone : exists added,
             user_answers self = user_answers self ++ added /\
             Forall built_entry added).
  { exists []. now rewrite app_nil_r. }
  destruct (negb (py_truthy (PyList (questions self)))); [exact Hnone|].
  destruct (py_truthy (get_current_question self)); [|exact Hnone].
  cbn [negb].
  destruct (py_getitem (get_current_question self) (str "correct_answer"))
    as [e|correct_answer]; [exact Hnone|].
  destruct (py_eq (PyStr chosen_option) correct_answer);
    repeat match goal with
           | |- context [py_getitem ?q ?k] =>
               destruct (py_getitem q k);
               [solve [cbn; exists []; now rewrite app_nil_r]|]
           end;
    cbn; eexists [_]; (split; [reflexivity|]);
    repeat constructor; unfold built_entry; do 6 eexists; reflexivity.
Qed.

Lemma log_entries_built_fold (calls : list call) :
  forall self,
    Forall built_entry (user_answers self) ->
    Forall built_entry (user_answers (fold_left after_call calls self)).
Proof.
  induction calls as [|c calls IH]; intros self H; [exact H|].
  cbn [fold_left]. apply IH. destruct c as [qd|chosen|]; cbn [after_call].
  - constructor.
  - destruct (submit_answer_adds_built self chosen) as (added & -> & Ha).
    apply Forall_app. now split.
  - constructor.
Qed.

(** X19.  For every entry of the log, after any sequence of calls, the
    results page finds the correct answer but not the answer the user
    chose: the entry stores the choice under [chosen_answer], none of the
    keys the page tries, so the page shows [N/A]. *)
Theorem results_page_misses_chosen_answer (calls : list call)
  (entry : dict) :
  In entry (user_answers (run calls)) ->
  get_answer_value entry user_answer_keys = PyStr (str "N/A") /\
  (exists chosen, dict_get entry (str "chosen_answer") = Some (PyStr chosen)) /\
  (exists correct_answer,
      dict_get entry (str "correct_answer") = Some correct_answer /\
      get_answer_value entry correct_answer_keys = correct_answer).
Proof.
  intros Hin.
  assert (Hb : Forall built_entry (user_answers (run calls))).
  { apply log_entries_built_fold. constructor. }
  rewrite Forall_forall in Hb.
  destruct (Hb entry Hin) as (q & o & c & ca & ic & ex & ->).
  split; [reflexivity|]. split; [exists c; reflexivity|].
  exists ca. split; reflexivity.
Qed.

Lemma results_page_misses_chosen_answer_witness :
  let q := LLMService.question_dict "Q" ["A"; "B"; "C"; "D"]%string "A" "E" in
  let entry :=
    answer_entry (PyStr (str "Q"))
      (PyList (map (fun o => PyStr (str o)) ["A"; "B"; "C"; "D"]%string))
      (str "B") (PyStr (str "A")) false (PyStr (str "E")) in
  get_answer_value entry user_answer_keys = PyStr (str "N/A") /\
  (exists chosen, dict_get entry (str "chosen_answer") = Some (PyStr chosen)) /\
  (exists correct_answer,
      dict_get entry (str "correct_answer") = Some correct_answer /\
      get_answer_value entry correct_answer_keys = correct_answer).
Proof.
  intros q entry.
  apply (results_page_misses_chosen_answer [Load [q]; Submit (str "B")]).
  left. reflexivity.
Defined.

(** The frame of a log of built entries has the six columns of an entry. *)
Lemma built_entry_labels (e : dict) (cols : list text) :
  built_entry e ->
  (cols = [] \/ cols = entry_labels) ->
  fold_left add_label (map fst e) cols = entry_labels.
Proof.
  intros (q & o & c & ca & ic & ex & ->) [->| ->]; reflexivity.
Qed.

Lemma frame_labels_built (l : list dict) :
  Forall built_entry l ->
  fold_left (fun cols d => fold_left add_label (map fst d) cols) l
    entry_labels = entry_labels.
Proof.
  induction 1 as [|e l He Hl IH]; [reflexivity|].
  cbn [fold_left]. rewrite (built_entry_labels e entry_labels He); auto.
Qed.

Lemma data_frame_built (e : dict) (l : list dict) :
  Forall built_entry (e :: l) ->
  data_frame (e :: l) =
  {| columns := entry_labels;
     rows := map (frame_row entry_labels) (e :: l) |}.
Proof.
  intros H. inversion H as [|e' l' He Hl]; subst.
  unfold data_frame, frame_labels. cbn [fold_left].
  rewrite (built_entry_labels e [] He) by auto.
  now rewrite frame_labels_built.
Qed.

Lemma all_str_raises (l : list pyval) (e : exn) :
  all_str l = inl e -> e = TypeError.
Proof.
  revert e. induction l as [|v l IH]; intros e; simpl; [discriminate|].
  destruct v; unfold raise; try congruence.
  unfold bind. destruct (all_str l) as [e1|r]; [|discriminate].
  intros H0. injection H0 as <-. now apply IH.
Qed.

Lemma str_join_raises (sep : text) (x : pyval) (e : exn) :
  str_join sep x = inl e -> e = TypeError.
Proof.
  destruct x as [| | | |s|l|d]; simpl; unfold ret, raise; try congruence.
  unfold bind.
  destruct (all_str l) as [e1|r] eqn:E; [|discriminate].
  intros H0. injection H0 as <-. now apply all_str_raises in E.
Qed.

Lemma all_str_not_all (l : list pyval) :
  (exists x, In x l /\ forall s, x <> PyStr s) ->
  all_str l = inl TypeError.
Proof.
  induction l as [|v l IH]; intros (x & Hin & Hx); [contradiction|].
  destruct Hin as [->|Hin].
  - destruct x; try reflexivity. exfalso. now apply (Hx s).
  - simpl. destruct v; try reflexivity.
    rewrite IH by eauto. reflexivity.
Qed.

Lemma apply_column_raises (f : pyval -> result pyval) (i : nat)
  (rs : list (list pyval)) :
  (forall x e, f x = inl e -> e = TypeError) ->
  (exists r, In r rs /\ f (nth i r (PyFloat F_nan)) = inl TypeError) ->
  apply_column f i rs = inl TypeError.
Proof.
  intros Hf. induction rs as [|r rs IH]; intros (r0 & Hin & Hr);
    [contradiction|].
  cbn [apply_column]. unfold bind.
  destruct (f (nth i r (PyFloat F_nan))) as [e|v] eqn:E.
  - apply Hf in E. now subst.
  - destruct Hin as [->|Hin]; [congruence|].
    rewrite IH by eauto. reflexivity.
Qed.

(** X20.  On a log that is not empty and whose entries hold strings
    without surrogates as question, options, chosen answer, correct answer
    and explanation, [export_to_csv] gives the table with the six columns
    of an entry and one row per entry, in the order of the log; in each
    row the options are joined with a semicolon and a space and the other
    five values are those of the entry. *)
Theorem export_to_csv_one_row_per_entry (a : answer) (l : list answer) :
  Forall plain_answer (a :: l) ->
  exists table,
    export_to_csv (map entry_of (a :: l)) = inr table /\
    columns table = entry_labels /\
    rows table = map row_of (a :: l) /\
    length (rows table) = length (a :: l).
Proof.
  intros Hplain.
  exists {| columns := entry_labels; rows := map row_of (a :: l) |}.
  split; [now apply export_to_csv_rows|].
  cbn [columns rows]. repeat split. now rewrite length_map.
Qed.

Lemma export_to_csv_one_row_per_entry_witness :
  let a1 := {| a_question := PyStr (str "Q1");
               a_options := [str "A"; str "B"; str "C"; str "D"];
               a_chosen := str "B";
               a_correct := PyStr (str "A");
               a_is_correct := false;
               a_explanation := PyStr (str "E1") |} in
  let a2 := {| a_question := PyStr (str "Q2");
               a_options := [str "A"; str "B"; str "C"; str "D"];
               a_chosen := str "C";
               a_correct := PyStr (str "C");
               a_is_correct := true;
               a_explanation := PyStr (str "E2") |} in
  exists table,
    export_to_csv (map entry_of [a1; a2]) = inr table /\
    columns table = entry_labels /\
    rows table = map row_of [a1; a2] /\
    length (rows table) = length [a1; a2].
Proof.
  intros a1 a2. apply (export_to_csv_one_row_per_entry a1 [a2]).
  repeat constructor;
    try (eexists; split; reflexivity); reflexivity.
Defined.

(** X21.  When an entry of the log has a list of options that holds a
    value that is not a string (the provider admits such records),
    [export_to_csv] raises [TypeError] instead of producing a table. *)
Theorem export_to_csv_rejects_non_string_options (log : list dict)
  (entry : dict) (options : list pyval) (x : pyval) :
  Forall built_entry log ->
  In entry log ->
  dict_get entry (str "options") = Some (PyList options) ->
  In x options ->
  (forall s, x <> PyStr s) ->
  export_to_csv log = inl TypeError.
Proof.
  intros Hb Hin Ho Hx Hns.
  destruct log as [|e log]; [contradiction|].
  unfold export_to_csv. rewrite (data_frame_built e log Hb).
  cbn [columns rows].
  change (column_index entry_labels (str "options")) with (Some 1%nat).
  cbv iota. rewrite apply_column_raises; [reflexivity| |].
  - intros v e0. unfold bind.
    destruct (str_join (str "; ") v) as [e1|s] eqn:E; [|discriminate].
    intros H. injection H as <-. now apply str_join_raises in E.
  - exists (frame_row entry_labels entry). split.
    + now apply in_map.
    + rewrite Forall_forall in Hb.
      destruct (Hb entry Hin) as (q & o & c & ca & ic & ex & ->).
      change (dict_get (answer_entry q o c ca ic ex) (str "options"))
        with (Some o) in Ho.
      injection Ho as ->.
      change (nth 1 (frame_row entry_labels
                       (answer_entry q (PyList options) c ca ic ex))
                (PyFloat F_nan)) with (PyList options).
      cbn [str_join]. rewrite all_str_not_all by eauto. reflexivity.
Qed.

Lemma export_to_csv_rejects_non_string_options_witness :
  export_to_csv
    [answer_entry (PyInt 7) (PyList [PyInt 1; PyInt 2; PyInt 3; PyInt 4])
       (str "1") (PyInt 1) false PyNone] = inl TypeError.
Proof.
  apply (export_to_csv_rejects_non_string_options
           [answer_entry (PyInt 7)
              (PyList [PyInt 1; PyInt 2; PyInt 3; PyInt 4])
              (str "1") (PyInt 1) false PyNone]
           (answer_entry (PyInt 7)
              (PyList [PyInt 1; PyInt 2; PyInt 3; PyInt 4])
              (str "1") (PyInt 1) false PyNone)
           [PyInt 1; PyInt 2; PyInt 3; PyInt 4] (PyInt 1)).
  - repeat constructor. unfold built_entry. do 6 eexists. reflexivity.
  - left. reflexivity.
  - reflexivity.
  - left. reflexivity.
  - intros s. discriminate.
Defined.

Lemma apply_column_error (f : pyval -> result pyval) (i : nat)
  (rs : list (list pyval)) (e : exn) :
  (forall x e0, f x = inl e0 -> e0 = TypeError) ->
  apply_column f i rs = inl e -> e = TypeError.
Proof.
  intros Hf. revert e. induction rs as [|r rs IH]; intros e;
    cbn [apply_column]; [discriminate|].
  unfold bind.
  destruct (f (nth i r (PyFloat F_nan))) as [e0|v] eqn:E.
  - intros H. injection H as <-. now apply Hf in E.
  - destruct (apply_column f i rs) as [e1|rest]; [|discriminate].
    intros H. injection H as <-. now apply IH.
Qed.

Lemma to_csv_raises (df : DataFrame) (e : exn) :
  to_csv df = inl e -> e = UnicodeEncodeError.
Proof.
  unfold to_csv, ret, raise.
  destruct (forallb encodable (columns df) &&
            forallb (forallb cell_encodable) (rows df)); congruence.
Qed.

(** X22.  On a log of entries built by [submit_answer], [export_to_csv]
    raises [KeyError] exactly when the log is empty: a log with an entry
    gives a frame that has the [options] column. *)
Theorem export_to_csv_errors (log : list dict) :
  Forall built_entry log ->
  (export_to_csv log = inl KeyError <-> log = []).
Proof.
  intros Hb. destruct log as [|entry log].
  - split; reflexivity.
  - split; [|discriminate].
    unfold export_to_csv.
    rewrite (data_frame_built entry log Hb). cbn [columns rows].
    change (column_index entry_labels (str "options")) with (Some 1%nat).
    cbv iota. unfold bind.
    destruct (apply_column _ 1 _) as [e0|new_rows] eqn:E.
    + intros H. injection H as ->.
      apply apply_column_error in E; [discriminate|].
      intros v e1.
      destruct (str_join (str "; ") v) as [e2|t] eqn:Ej; [|discriminate].
      intros H. injection H as <-. now apply str_join_raises in Ej.
    + intros H. apply to_csv_raises in H. discriminate.
Qed.

Lemma export_to_csv_errors_witness :
  let log :=
    [answer_entry (PyStr (str "Q")) (PyList [PyStr (str "A")]) (str "A")
       (PyStr (str "A")) true (PyStr (str "E"))] in
  export_to_csv log = inl KeyError <-> log = [].
Proof.
  intros log. apply (export_to_csv_errors log).
  repeat constructor. unfold built_entry. do 6 eexists. reflexivity.
Defined.

End LogConsumers.
